(** * PROS kernel: reload table, competition daemon and IMU accessors

    A shallow embedding of three translation units of the kernel,

      - [src/system/hot.c]            (module [Hot]),
      - [src/system/system_daemon.c]  (module [Daemon]),
      - [src/devices/vdml_imu.c]      (module [Imu]),

    and the properties of them that the specification states.

    Conventions.  A C integer is a [Z]; where the source relies on the
    width of a type the wrap-around is written out.  A pointer is the [Z]
    of its address, [0] being [NULL].  Every call that leaves the
    translation unit is recorded, in program order, in a log carried by
    the state, so that sequencing can be stated about the log.  What the
    headers that are not part of the three files define (constants, the
    entries of an X-macro list, vendor entry points) is a [Variable] of
    the enclosing section. *)

From stdpp Require Import list strings.
From Stdlib Require Import ZArith Lia.

Local Open Scope Z_scope.

(** [size_t], [uint32_t] and addresses are 32 bits wide on the target. *)
Definition word_modulus : Z := 2 ^ 32.

(* ===================================================================== *)
(** * system/hot.c                                                        *)
(* ===================================================================== *)

Module Hot.

(** Modelled from the spec: [system/user_functions/list.h] and
    [system/hot.h] are not among the sources.  The spec gives the reload
    table one function-pointer slot per user-overridable callback
    (initialize, autonomous, opcontrol, disabled, competition_initialize)
    plus the alternate-linkage initializer, which is the slot
    [system_daemon.c] reads as [cpp_initialize].  These are the names the
    X-macro [FUNC] ranges over. *)
Inductive user_function : Set :=
  | autonomous
  | initialize
  | opcontrol
  | disabled
  | competition_initialize
  | cpp_initialize.

Global Instance user_function_eq_dec : EqDecision user_function.
Proof. solve_decision. Defined.

(** [struct hot_table]: two metadata pointers and the [functions] block
    with one slot per [FUNC] name. *)
Record hot_table : Type := {
  compile_timestamp : Z;
  compile_directory : Z;
  functions : user_function -> Z
}.

(** [tbl->functions.F = v] *)
Definition set_function (tbl : hot_table) (F : user_function) (v : Z) : hot_table :=
  {| compile_timestamp := compile_timestamp tbl;
     compile_directory := compile_directory tbl;
     functions := fun G => if decide (G = F) then v else functions tbl G |}.

(** [struct hot_table __HOT_TABLE = { 0 }] and the result of
    [memset(HOT_TABLE, 0, sizeof( *HOT_TABLE))]. *)
Definition zero_table : hot_table :=
  {| compile_timestamp := 0; compile_directory := 0; functions := fun _ => 0 |}.

Definition MAGIC0 : Z := 0x52616368.
Definition MAGIC1 : Z := 0x8CEF7310.

(** Byte-addressed memory of the hot image. *)
Definition memory : Type := Z -> Z.

(** [memset(p, c, n)]: the [n] bytes from [p] on, addresses taken modulo
    the address space, receive [(unsigned char) c]. *)
Definition memset (m : memory) (p c n : Z) : memory :=
  fun a => if (a - p) mod word_modulus <? n then c mod 256 else m a.

(** A pointer difference converted to the [size_t] parameter of [memset]. *)
Definition size_t_of (d : Z) : Z := d mod word_modulus.

(** What the two [printf] calls emit. *)
Inductive printed : Type :=
  | hot_initializing
  | invoke_banner (install_addr table_addr magic0 magic1 : Z).

(** The state the file acts on: the cold table behind [HOT_TABLE], the two
    words behind [MAGIC_ADDR], the memory of the hot image and standard
    output.  The table is "stored only in cold": it is a component of its
    own, outside the hot image's memory. *)
Record state : Type := {
  HOT_TABLE : hot_table;
  MAGIC_ADDR : Z * Z;
  mem : memory;
  stdout : list printed
}.

Definition with_table (s : state) (t : hot_table) : state :=
  {| HOT_TABLE := t; MAGIC_ADDR := MAGIC_ADDR s; mem := mem s; stdout := stdout s |}.

Definition with_mem (s : state) (m : memory) : state :=
  {| HOT_TABLE := HOT_TABLE s; MAGIC_ADDR := MAGIC_ADDR s; mem := m; stdout := stdout s |}.

Definition printf (s : state) (p : printed) : state :=
  {| HOT_TABLE := HOT_TABLE s; MAGIC_ADDR := MAGIC_ADDR s; mem := mem s;
     stdout := stdout s ++ [p] |}.

Section Install.

(** The entries of [system/user_functions/list.h], in file order. *)
Variable list_h : list user_function.

(** What the linker resolves in the hot image. *)
Variable _PROS_COMPILE_TIMESTAMP : Z.
Variable _PROS_COMPILE_DIRECTORY : Z.
Variable hot_address : user_function -> Z.
Variables __sbss_start __sbss_end __bss_start __bss_end : Z.

(** [__libc_init_array()]: the static initialisers of the hot image,
    acting on the hot image's memory. *)
Variable __libc_init_array : memory -> memory.

(** Addresses printed by the banner. *)
Variables install_hot_table_addr HOT_TABLE_addr : Z.

(** Lines 37-44: metadata, then [#define FUNC(F) tbl->functions.F = F;]
    over [list.h]. *)
Definition capture (tbl : hot_table) : hot_table :=
  let tbl1 :=
    {| compile_timestamp := _PROS_COMPILE_TIMESTAMP;
       compile_directory := compile_directory tbl;
       functions := functions tbl |} in
  let tbl2 :=
    {| compile_timestamp := compile_timestamp tbl1;
       compile_directory := _PROS_COMPILE_DIRECTORY;
       functions := functions tbl1 |} in
  fold_left (fun t F => set_function t F (hot_address F)) list_h tbl2.

(** Lines 47-48, as written: the second length is
    [__bss_end - __bss_end]. *)
Definition zero_fill (m : memory) : memory :=
  let m1 := memset m __sbss_start 0 (size_t_of (__sbss_end - __sbss_start)) in
  memset m1 __bss_start 0 (size_t_of (__bss_end - __bss_end)).

(** [install_hot_table] up to, and excluding, line 50. *)
Definition install_hot_table_before_init (s : state) : state :=
  let s1 := printf s hot_initializing in
  let s2 := with_table s1 (capture (HOT_TABLE s1)) in
  with_mem s2 (zero_fill (mem s2)).

Definition install_hot_table (s : state) : state :=
  let s3 := install_hot_table_before_init s in
  with_mem s3 (__libc_init_array (mem s3)).

Definition invoke_install_hot_table (s : state) : state :=
  let s0 := printf s (invoke_banner install_hot_table_addr HOT_TABLE_addr
                        (fst (MAGIC_ADDR s)) (snd (MAGIC_ADDR s))) in
  if (fst (MAGIC_ADDR s0) =? MAGIC0) && (snd (MAGIC_ADDR s0) =? MAGIC1)
  then install_hot_table s0
  else with_table s0 zero_table.

(** The table of a compatible reload: both metadata pointers are the
    hot image's linked constants and every slot is the hot image's
    address of its callback. *)
Definition installed (tbl : hot_table) : Prop :=
  compile_timestamp tbl = _PROS_COMPILE_TIMESTAMP /\
  compile_directory tbl = _PROS_COMPILE_DIRECTORY /\
  forall F, functions tbl F = hot_address F.

(** ** The [FUNC] expansion *)

Lemma fold_set_function_metadata (l : list user_function) (tbl : hot_table) :
  let t := fold_left (fun t F => set_function t F (hot_address F)) l tbl in
  compile_timestamp t = compile_timestamp tbl /\
  compile_directory t = compile_directory tbl.
Proof.
  revert tbl. induction l as [|G l IH]; intros tbl; simpl; [tauto|].
  destruct (IH (set_function tbl G (hot_address G))) as [H1 H2].
  simpl in *. now rewrite H1, H2.
Qed.

Lemma fold_set_function_other (l : list user_function) (tbl : hot_table) (F : user_function) :
  ~ In F l ->
  functions (fold_left (fun t F => set_function t F (hot_address F)) l tbl) F =
  functions tbl F.
Proof.
  revert tbl. induction l as [|G l IH]; intros tbl Hn; simpl; [reflexivity|].
  rewrite IH by (intros Hin; apply Hn; now right). simpl.
  destruct (decide (F = G)) as [->|_]; [|reflexivity].
  exfalso. apply Hn. now left.
Qed.

Lemma fold_set_function_slot (l : list user_function) (tbl : hot_table) (F : user_function) :
  In F l ->
  functions (fold_left (fun t F => set_function t F (hot_address F)) l tbl) F =
  hot_address F.
Proof.
  revert tbl. induction l as [|G l IH]; intros tbl Hin; simpl; [destruct Hin|].
  destruct (in_dec user_function_eq_dec F l) as [Hl|Hl]; [now apply IH|].
  rewrite fold_set_function_other by exact Hl. simpl.
  destruct Hin as [->|Hin]; [|contradiction].
  destruct (decide (F = F)); [reflexivity|congruence].
Qed.

Lemma capture_installed (tbl : hot_table) :
  (forall F, In F list_h) -> installed (capture tbl).
Proof.
  intros Hall. unfold installed, capture.
  match goal with
  | |- context [fold_left ?f list_h ?t] =>
      destruct (fold_set_function_metadata list_h t) as [Hts Hdir]
  end.
  simpl in Hts, Hdir. split; [exact Hts|]. split; [exact Hdir|].
  intros F. now apply fold_set_function_slot.
Qed.

(** ** [memset] and the zero fill *)

Lemma size_t_of_0 : size_t_of 0 = 0.
Proof. reflexivity. Qed.

Lemma memset_empty (m : memory) (p c a : Z) : memset m p c 0 a = m a.
Proof.
  unfold memset.
  assert (0 <= (a - p) mod word_modulus) by (apply Z.mod_pos_bound; reflexivity).
  destruct ((a - p) mod word_modulus <? 0) eqn:E; [lia|reflexivity].
Qed.

Lemma memset_inside (m : memory) (p c n a : Z) :
  p <= a < p + n -> n <= word_modulus -> memset m p c n a = c mod 256.
Proof.
  intros Ha Hn. unfold memset.
  rewrite (Z.mod_small (a - p)) by lia.
  destruct (a - p <? n) eqn:E; [reflexivity|lia].
Qed.

(** The second [memset] of [zero_fill] has length zero for every choice
    of the region bounds: only the first one writes. *)
Lemma zero_fill_is_sbss_only (m : memory) (a : Z) :
  zero_fill m a = memset m __sbss_start 0 (size_t_of (__sbss_end - __sbss_start)) a.
Proof.
  unfold zero_fill. rewrite Z.sub_diag, size_t_of_0. apply memset_empty.
Qed.

(** The scratch region is cleared in full. *)
Lemma zero_fill_sbss (m : memory) (a : Z) :
  __sbss_start <= a < __sbss_end ->
  __sbss_end - __sbss_start < word_modulus ->
  zero_fill m a = 0.
Proof.
  intros Ha Hlen. rewrite zero_fill_is_sbss_only.
  unfold size_t_of. rewrite (Z.mod_small (__sbss_end - __sbss_start)) by lia.
  rewrite memset_inside; [reflexivity|lia|lia].
Qed.

(** A byte of the larger region that does not lie in the scratch region
    keeps the value it had. *)
Lemma zero_fill_bss_untouched (m : memory) (a : Z) :
  0 <= __sbss_start <= __sbss_end -> __sbss_end <= a < word_modulus ->
  zero_fill m a = m a.
Proof.
  intros Hs Ha. rewrite zero_fill_is_sbss_only. unfold memset, size_t_of.
  rewrite (Z.mod_small (a - __sbss_start)) by lia.
  rewrite (Z.mod_small (__sbss_end - __sbss_start)) by (unfold word_modulus in *; lia).
  destruct (a - __sbss_start <? __sbss_end - __sbss_start) eqn:E; [lia|reflexivity].
Qed.

(** ** The install attempt *)

Lemma install_hot_table_table (s : state) :
  HOT_TABLE (install_hot_table s) = capture (HOT_TABLE s).
Proof. reflexivity. Qed.

Lemma install_hot_table_stdout (s : state) :
  stdout (install_hot_table s) = stdout s ++ [hot_initializing].
Proof. reflexivity. Qed.

(** C3.  An install attempt has exactly two outcomes, decided by the
    sentinel.  If the two sentinel words are the two magic constants,
    the table is installed: both metadata pointers are the hot image's
    linked constants and every callback slot holds the hot image's
    address of that callback.  If either word differs, the table is the
    all-zero table, the hot image's memory is not touched and nothing
    but the banner that every attempt prints reaches the output: the
    mismatch is not reported.  The slots of the table are the names of
    [list.h], which is the hypothesis. *)
Theorem invoke_install_hot_table_outcome (s : state) :
  (forall F, In F list_h) ->
  let s' := invoke_install_hot_table s in
  let banner := invoke_banner install_hot_table_addr HOT_TABLE_addr
                  (fst (MAGIC_ADDR s)) (snd (MAGIC_ADDR s)) in
  (MAGIC_ADDR s = (MAGIC0, MAGIC1) /\ installed (HOT_TABLE s')) \/
  (MAGIC_ADDR s <> (MAGIC0, MAGIC1) /\
   HOT_TABLE s' = zero_table /\
   mem s' = mem s /\
   stdout s' = stdout s ++ [banner]).
Proof.
  intros Hall. cbv zeta. unfold invoke_install_hot_table.
  destruct (MAGIC_ADDR s) as [m0 m1] eqn:Hm.
  change (MAGIC_ADDR (printf s ?p)) with (MAGIC_ADDR s). rewrite Hm.
  cbn [fst snd].
  destruct (m0 =? MAGIC0) eqn:E0; cbn [andb].
  - destruct (m1 =? MAGIC1) eqn:E1.
    + left. apply Z.eqb_eq in E0, E1. subst m0 m1. split; [reflexivity|].
      rewrite install_hot_table_table. now apply capture_installed.
    + right. apply Z.eqb_neq in E1.
      split; [intros [= _ Heq]; contradiction|]. now repeat split.
  - right. apply Z.eqb_neq in E0.
    split; [intros [= Heq _]; contradiction|]. now repeat split.
Qed.

End Install.

(** ** Concrete hot images *)

(** [list.h] with one entry per slot. *)
Definition list_h_all : list user_function :=
  [autonomous; initialize; opcontrol; disabled; competition_initialize; cpp_initialize].

Lemma list_h_all_complete (F : user_function) : In F list_h_all.
Proof. destruct F; simpl; tauto. Qed.

(** A hot image linked at [0x07800000]. *)
Definition sample_hot_address (F : user_function) : Z :=
  match F with
  | autonomous => 0x07800100
  | initialize => 0x07800140
  | opcontrol => 0x07800180
  | disabled => 0x078001C0
  | competition_initialize => 0x07800200
  | cpp_initialize => 0x07800240
  end.

(** A cold boot whose sentinel matches, over memory full of [0xAA]. *)
Definition sample_state : state :=
  {| HOT_TABLE := zero_table;
     MAGIC_ADDR := (MAGIC0, MAGIC1);
     mem := fun _ => 0xAA;
     stdout := [] |}.

Lemma invoke_install_hot_table_outcome_witness :
  (forall F, In F list_h_all) /\
  ((MAGIC_ADDR sample_state = (MAGIC0, MAGIC1) /\
    installed 0x07900000 0x07900020 sample_hot_address
      (HOT_TABLE (invoke_install_hot_table list_h_all 0x07900000 0x07900020
                    sample_hot_address 0x07A00000 0x07A00000 0x07A00000 0x07A00010
                    (fun m => m) 0x07800000 0x03800000 sample_state))) \/
   (MAGIC_ADDR sample_state <> (MAGIC0, MAGIC1) /\
    HOT_TABLE (invoke_install_hot_table list_h_all 0x07900000 0x07900020
                 sample_hot_address 0x07A00000 0x07A00000 0x07A00000 0x07A00010
                 (fun m => m) 0x07800000 0x03800000 sample_state) = zero_table /\
    mem (invoke_install_hot_table list_h_all 0x07900000 0x07900020
           sample_hot_address 0x07A00000 0x07A00000 0x07A00000 0x07A00010
           (fun m => m) 0x07800000 0x03800000 sample_state) = mem sample_state /\
    stdout (invoke_install_hot_table list_h_all 0x07900000 0x07900020
              sample_hot_address 0x07A00000 0x07A00000 0x07A00000 0x07A00010
              (fun m => m) 0x07800000 0x03800000 sample_state) =
    stdout sample_state ++
      [invoke_banner 0x07800000 0x03800000
         (fst (MAGIC_ADDR sample_state)) (snd (MAGIC_ADDR sample_state))])).
Proof.
  split; [exact list_h_all_complete|].
  exact (invoke_install_hot_table_outcome list_h_all 0x07900000 0x07900020
           sample_hot_address 0x07A00000 0x07A00000 0x07A00000 0x07A00010
           (fun m => m) 0x07800000 0x03800000 sample_state list_h_all_complete).
Defined.

(** C4 (the code departs from it).  A compatible install over memory full
    of [0xAA], with an empty scratch region at [0x07A00000] and a
    sixteen-byte uninitialised-data region from [0x07A00000] to
    [0x07A00010]: when the static initialisers are about to run, the
    callback slots are captured but every byte of the larger region still
    holds [0xAA].  The second [memset] is given the length
    [__bss_end - __bss_end]. *)
Theorem install_leaves_bss_unzeroed :
  let s' := install_hot_table_before_init list_h_all 0x07900000 0x07900020
              sample_hot_address 0x07A00000 0x07A00000 0x07A00000 0x07A00010
              sample_state in
  functions (HOT_TABLE s') autonomous = 0x07800100 /\
  size_t_of (0x07A00010 - 0x07A00010) = 0 /\
  forall a, 0x07A00000 <= a < 0x07A00010 -> mem s' a = 0xAA.
Proof.
  cbv zeta. split; [reflexivity|]. split; [reflexivity|].
  intros a Ha. unfold install_hot_table_before_init. simpl.
  rewrite zero_fill_bss_untouched; [reflexivity| lia | unfold word_modulus; lia].
Qed.

(** ** What an install does to the hot image's memory *)

Section InstallMemory.

Variable list_h : list user_function.
Variables _PROS_COMPILE_TIMESTAMP _PROS_COMPILE_DIRECTORY : Z.
Variable hot_address : user_function -> Z.
Variables __sbss_start __sbss_end __bss_start __bss_end : Z.



End InstallMemory.


End Hot.

(* ===================================================================== *)
(** * system/system_daemon.c                                              *)
(* ===================================================================== *)

Module Daemon.

(** [enum state_task] *)
Inductive state_task : Set :=
  | E_OPCONTROL_TASK
  | E_AUTON_TASK
  | E_DISABLED_TASK
  | E_COMP_INIT_TASK.

(** The task entry points of the file; [foreign_task] stands for any
    entry point defined elsewhere. *)
Inductive task_fn_t : Set :=
  | _opcontrol_task
  | _autonomous_task
  | _disabled_task
  | _competition_initialize_task
  | _initialize_task
  | _system_daemon_task
  | foreign_task (entry : Z).

(** [char task_names[4][32]] and [task_fn_t task_fns[4]], indexed by
    [enum state_task]. *)
Definition task_names (st : state_task) : string :=
  match st with
  | E_OPCONTROL_TASK => "User Operator Control (PROS)"
  | E_AUTON_TASK => "User Autonomous (PROS)"
  | E_DISABLED_TASK => "User Disabled (PROS)"
  | E_COMP_INIT_TASK => "User Comp. Init. (PROS)"
  end.

Definition task_fns (st : state_task) : task_fn_t :=
  match st with
  | E_OPCONTROL_TASK => _opcontrol_task
  | E_AUTON_TASK => _autonomous_task
  | E_DISABLED_TASK => _disabled_task
  | E_COMP_INIT_TASK => _competition_initialize_task
  end.

(** The statically reserved stack-and-control-block pairs handed to
    [task_create_static]: the two of this file, and anything else. *)
Inductive storage : Set :=
  | competition_task_buffer
  | system_daemon_task_buffer
  | foreign_buffer.

(** ** The scheduler *)

(** Modelled from the spec: the RTOS ([pros/rtos.h], [task_create_static],
    [task_get_state], [task_delete]) is not among the sources; the spec
    assumes "a preemptive RTOS providing tasks, static allocation" and
    names the scheduling states ready, blocked, suspended, deleted,
    invalid and running.  A scheduler is the list of the tasks ever
    created, a task handle is the position of its task in that list
    ([None] is [NULL]); creating a task appends a ready one, deleting a
    task marks it deleted, and a handle that names no task is reported
    invalid. *)
Inductive task_state_e_t : Set :=
  | E_TASK_STATE_RUNNING
  | E_TASK_STATE_READY
  | E_TASK_STATE_BLOCKED
  | E_TASK_STATE_SUSPENDED
  | E_TASK_STATE_DELETED
  | E_TASK_STATE_INVALID.

Global Instance task_state_eq_dec : EqDecision task_state_e_t.
Proof. solve_decision. Defined.

Record tcb : Type := {
  t_fn : task_fn_t;
  t_name : string;
  t_storage : storage;
  t_state : task_state_e_t
}.

Definition task_t : Type := option nat.

(** Modelled from the spec: [task_get_state] of the RTOS is not among the
    sources.  The state the scheduler holds for the task; a handle that
    names no task is reported invalid. *)
Definition task_get_state (sched : list tcb) (task : task_t) : task_state_e_t :=
  match task with
  | None => E_TASK_STATE_INVALID
  | Some h =>
      match sched !! h with
      | Some t => t_state t
      | None => E_TASK_STATE_INVALID
      end
  end.

Definition mark_deleted (t : tcb) : tcb :=
  {| t_fn := t_fn t; t_name := t_name t; t_storage := t_storage t;
     t_state := E_TASK_STATE_DELETED |}.

(** Modelled from the spec: [task_delete] of the RTOS is not among the
    sources.  "Deleting a mode task is unconditional cancellation": the
    task is marked deleted where it stands.  The daemon never passes
    [NULL], for which nothing is done here. *)
Definition task_delete (sched : list tcb) (task : task_t) : list tcb :=
  match task with
  | None => sched
  | Some h =>
      match sched !! h with
      | Some t => <[h := mark_deleted t]> sched
      | None => sched
      end
  end.

(** Modelled from the spec: [task_create_static] of the RTOS is not among
    the sources.  A new task, ready to run, in the storage it is given;
    its handle is returned.  The arguments that are the same at every call
    of the file ([NULL] parameter, [TASK_PRIORITY_DEFAULT],
    [TASK_STACK_DEPTH_DEFAULT]) are not recorded. *)
Definition task_create_static (sched : list tcb) (fn : task_fn_t) (name : string)
    (buf : storage) : list tcb * task_t :=
  (sched ++ [ {| t_fn := fn; t_name := name; t_storage := buf;
                 t_state := E_TASK_STATE_READY |} ],
   Some (length sched)).

(** A task is live when the scheduler may still run it. *)
Definition is_live (st : task_state_e_t) : bool :=
  match st with
  | E_TASK_STATE_RUNNING | E_TASK_STATE_READY
  | E_TASK_STATE_BLOCKED | E_TASK_STATE_SUSPENDED => true
  | E_TASK_STATE_DELETED | E_TASK_STATE_INVALID => false
  end.

(** A live task that occupies the mode slot's storage. *)
Definition is_live_mode_task (t : tcb) : bool :=
  match t_storage t with
  | competition_task_buffer => is_live (t_state t)
  | _ => false
  end.

Definition live_mode_tasks (sched : list tcb) : nat :=
  length (List.filter is_live_mode_task sched).

(** ** The daemon's state and its calls *)

(** The calls that leave the file, with what they were given and what they
    returned. *)
Inductive call : Type :=
  | call_port_mutex_take_all
  | call_ser_output_flush
  | call_rtos_suspend_all
  | call_vexBackgroundProcessing
  | call_rtos_resume_all
  | call_vdml_background_processing
  | call_port_mutex_give_all
  | call_millis (ret : Z)
  | call_task_delay (ms : Z)
  | call_task_delay_until (prev_time delta : Z)
  | call_task_notify_take (clear : bool) (timeout : Z) (ret : bool)
  | call_competition_get_status (ret : Z)
  | call_task_get_state (task : task_t) (ret : task_state_e_t)
  | call_task_delete (task : task_t)
  | call_task_create_static (fn : task_fn_t) (name : string) (buf : storage) (ret : task_t).

(** The locals [time] and [status] of [_system_daemon_task], the static
    [competition_task], the scheduler, and the log of calls. *)
Record state : Type := {
  time : Z;
  status : Z;
  competition_task : task_t;
  tasks : list tcb;
  log : list call
}.

Definition emit (c : call) (s : state) : state :=
  {| time := time s; status := status s; competition_task := competition_task s;
     tasks := tasks s; log := log s ++ [c] |}.

Definition set_time (t : Z) (s : state) : state :=
  {| time := t; status := status s; competition_task := competition_task s;
     tasks := tasks s; log := log s |}.

Definition set_status (v : Z) (s : state) : state :=
  {| time := time s; status := v; competition_task := competition_task s;
     tasks := tasks s; log := log s |}.

Definition background_calls : list call :=
  [ call_port_mutex_take_all; call_ser_output_flush; call_rtos_suspend_all;
    call_vexBackgroundProcessing; call_rtos_resume_all;
    call_vdml_background_processing; call_port_mutex_give_all ].

(** [do_background_operations] *)
Definition do_background_operations (s : state) : state :=
  emit call_port_mutex_give_all
    (emit call_vdml_background_processing
      (emit call_rtos_resume_all
        (emit call_vexBackgroundProcessing
          (emit call_rtos_suspend_all
            (emit call_ser_output_flush
              (emit call_port_mutex_take_all s)))))).

(** [task_delay_until(&time, 2)]: sleeps to the deadline [time + 2] and
    advances [time] to it. *)
Definition task_delay_until (delta : Z) (s : state) : state :=
  set_time ((time s + delta) mod word_modulus)
    (emit (call_task_delay_until (time s) delta) s).

(** Line 112-113: the states in which the outgoing task is deleted. *)
Definition deletable (task_state : task_state_e_t) : bool :=
  match task_state with
  | E_TASK_STATE_READY | E_TASK_STATE_BLOCKED | E_TASK_STATE_SUSPENDED => true
  | _ => false
  end.

(** Lines 108-115. *)
Definition retire_outgoing (s : state) : state :=
  let task_state := task_get_state (tasks s) (competition_task s) in
  let s1 := emit (call_task_get_state (competition_task s) task_state) s in
  if deletable task_state
  then
    {| time := time s1; status := status s1; competition_task := competition_task s1;
       tasks := task_delete (tasks s1) (competition_task s1);
       log := log s1 ++ [call_task_delete (competition_task s1)] |}
  else s1.

(** [competition_task = task_create_static(fn, ..., name,
    competition_task_stack, &competition_task_buffer)] *)
Definition start_in_slot (fn : task_fn_t) (name : string) (s : state) : state :=
  let '(sched, h) := task_create_static (tasks s) fn name competition_task_buffer in
  {| time := time s; status := status s; competition_task := h; tasks := sched;
     log := log s ++ [call_task_create_static fn name competition_task_buffer h] |}.

(** C truth value of [x & mask]. *)
Definition is_set (x mask : Z) : bool := negb (Z.land x mask =? 0).

(** Lines 60-79: the locals are initialised, the port mutexes are held over
    a two millisecond delay, and the initialisation task is created in the
    slot.  [t0] and [t1] are what the two calls of [millis] return. *)
Definition daemon_prologue (t0 t1 : Z) (s : state) : state :=
  let s1 := set_status (Z.shiftl 1 8 mod word_modulus) (set_time t0 (emit (call_millis t0) s)) in
  let s2 := emit call_port_mutex_give_all
              (emit (call_task_delay 2) (emit call_port_mutex_take_all s1)) in
  let s3 := start_in_slot _initialize_task "User Initialization (PROS)" s2 in
  set_time t1 (emit (call_millis t1) s3).

(** Lines 80-83, one pass through the loop: [task_notify_take(true, 2)]
    timed out. *)
Definition bootstrap_iteration (s : state) : state :=
  do_background_operations (emit (call_task_notify_take true 2 false) s).

(** Line 80, the notification arrived: the loop is left. *)
Definition bootstrap_exit (s : state) : state :=
  emit (call_task_notify_take true 2 true) s.

(** The daemon's task starts with its static handle [NULL]. *)
Definition entry_state (sched : list tcb) : state :=
  {| time := 0; status := 0; competition_task := None; tasks := sched; log := [] |}.

(** ** The other tasks *)

(** What the rest of the system may do to the scheduler while the daemon
    sleeps or waits.  The storage of the mode slot is private to this
    file, so no task appears in it, and a task in it that is no longer
    live does not come back; user code may move the mode task between the
    scheduling states or end it, and may create tasks of its own.  Once
    the daemon runs again it is the running task, so no task of the slot
    is reported running (line 110-111: "running means it's the current
    task, which will never be the case").  The daemon's own variables and
    log are not touched. *)
Definition env_step (s s' : state) : Prop :=
  time s' = time s /\
  status s' = status s /\
  competition_task s' = competition_task s /\
  log s' = log s /\
  forall h t',
    tasks s' !! h = Some t' ->
    t_storage t' = competition_task_buffer ->
    t_state t' <> E_TASK_STATE_RUNNING /\
    exists t,
      tasks s !! h = Some t /\
      t_storage t = competition_task_buffer /\
      t_fn t = t_fn t' /\
      (is_live (t_state t') = true -> is_live (t_state t) = true).

(** The two loops of [_system_daemon_task]. *)
Inductive phase : Set := Bootstrap | Steady.

Section Competition.

(** [pros/misc.h] is not among the sources: the positions of the three
    flags in the status word are parameters. *)
Variables disabled_bit autonomous_bit connected_bit : Z.

Definition COMPETITION_DISABLED : Z := Z.shiftl 1 disabled_bit.
Definition COMPETITION_AUTONOMOUS : Z := Z.shiftl 1 autonomous_bit.
Definition COMPETITION_CONNECTED : Z := Z.shiftl 1 connected_bit.

(** Lines 91 and 99-106. *)
Definition select_state (old_status status : Z) : state_task :=
  if is_set (Z.lxor status old_status) COMPETITION_CONNECTED &&
     (Z.land status (Z.lor COMPETITION_DISABLED COMPETITION_CONNECTED) =?
      Z.lor COMPETITION_DISABLED COMPETITION_CONNECTED)
  then E_COMP_INIT_TASK
  else if is_set status COMPETITION_DISABLED then E_DISABLED_TASK
  else if is_set status COMPETITION_AUTONOMOUS then E_AUTON_TASK
  else E_OPCONTROL_TASK.

(** Line 92: both the new and the old status are disabled. *)
Definition held_disabled (old_status status : Z) : bool :=
  is_set status COMPETITION_DISABLED && is_set old_status COMPETITION_DISABLED.

(** One iteration of the [while (1)] loop, lines 85-121.
    [competition_get_status] is called once in the test of line 87 and,
    when that test succeeds, once more in line 90: [guard] and [fresh]
    are what the two calls return.  The [continue] of line 94 ends the
    iteration where it stands. *)
Definition steady_iteration (guard fresh : Z) (s : state) : state :=
  let s1 := do_background_operations s in
  let s2 := emit (call_competition_get_status guard) s1 in
  if status s2 =? guard
  then task_delay_until 2 s2
  else
    let old_status := status s2 in
    let s3 := set_status fresh (emit (call_competition_get_status fresh) s2) in
    if held_disabled old_status (status s3)
    then s3
    else
      let state := select_state old_status (status s3) in
      let s4 := retire_outgoing s3 in
      let s5 := start_in_slot (task_fns state) (task_names state) s4 in
      task_delay_until 2 s5.

(** Whether an iteration reaches the transition of lines 97-118. *)
Definition transition_fires (guard fresh : Z) (s : state) : bool :=
  negb (status s =? guard) && negb (held_disabled (status s) fresh).

(** Whether an iteration leaves through the [continue] of line 94. *)
Definition leaves_by_continue (guard fresh : Z) (s : state) : bool :=
  negb (status s =? guard) && held_disabled (status s) fresh.

(** Some iterations in a row, each with the two values it polls. *)
Fixpoint run (polls : list (Z * Z)) (s : state) : state :=
  match polls with
  | [] => s
  | (guard, fresh) :: rest => run rest (steady_iteration guard fresh s)
  end.

(** The states of the daemon, from a scheduler in which nothing lives in
    the mode slot: the prologue, then the bootstrap loop until the
    notification, then the steady loop, the other tasks running in
    between. *)
Inductive reachable : phase -> state -> Prop :=
  | reach_prologue (sched : list tcb) (t0 t1 : Z) :
      Forall (fun t => is_live_mode_task t = false) sched ->
      reachable Bootstrap (daemon_prologue t0 t1 (entry_state sched))
  | reach_bootstrap (s : state) :
      reachable Bootstrap s -> reachable Bootstrap (bootstrap_iteration s)
  | reach_notified (s : state) :
      reachable Bootstrap s -> reachable Steady (bootstrap_exit s)
  | reach_iteration (s : state) (guard fresh : Z) :
      reachable Steady s -> reachable Steady (steady_iteration guard fresh s)
  | reach_env (p : phase) (s s' : state) :
      reachable p s -> env_step s s' -> reachable p s'.

End Competition.

(** How many times the log runs the vendor's background service, which
    [do_background_operations] calls once, and how many times it sleeps to
    a deadline. *)
Definition is_service (c : call) : bool :=
  match c with call_vexBackgroundProcessing => true | _ => false end.

Definition is_deadline_sleep (c : call) : bool :=
  match c with call_task_delay_until _ _ => true | _ => false end.

Definition is_slot_change (c : call) : bool :=
  match c with
  | call_task_delete _ | call_task_create_static _ _ _ _ => true
  | _ => false
  end.

Definition service_steps (l : list call) : nat := length (List.filter is_service l).
Definition deadline_sleeps (l : list call) : nat := length (List.filter is_deadline_sleep l).

(** The calls that a step from [s] to [s'] added to the log. *)
Definition new_calls (s s' : state) : list call := drop (length (log s)) (log s').

(** The slot is in order when every live task in its storage is the one
    the handle names, and is not reported running. *)
Definition slot_ok (sched : list tcb) (task : task_t) : Prop :=
  forall h t,
    sched !! h = Some t -> is_live_mode_task t = true ->
    task = Some h /\ t_state t <> E_TASK_STATE_RUNNING.

(** ** Entry-point resolution *)

(** [void ( *user_initialize)()] and [void ( *user_cpp_initialize)()] *)
Record user_pointers : Type := {
  user_initialize : Z;
  user_cpp_initialize : Z
}.

(** The user callback that a task entry point of the file calls: through
    one of the two pointers, or through the symbol itself. *)
Inductive callee : Type :=
  | through_pointer (address : Z)
  | through_symbol (F : Hot.user_function).

(** Lines 173-189: the callback each task entry point calls. *)
Definition task_callee (p : user_pointers) (fn : task_fn_t) : option callee :=
  match fn with
  | _competition_initialize_task => Some (through_symbol Hot.competition_initialize)
  | _initialize_task => Some (through_pointer (user_initialize p))
  | _autonomous_task => Some (through_symbol Hot.autonomous)
  | _opcontrol_task => Some (through_symbol Hot.opcontrol)
  | _disabled_task => Some (through_symbol Hot.disabled)
  | _system_daemon_task => None
  | foreign_task _ => None
  end.

(** The task entry point that the daemon creates for a callback. *)
Definition task_of_callback (F : Hot.user_function) : option task_fn_t :=
  match F with
  | Hot.initialize => Some _initialize_task
  | Hot.autonomous => Some _autonomous_task
  | Hot.opcontrol => Some _opcontrol_task
  | Hot.disabled => Some _disabled_task
  | Hot.competition_initialize => Some _competition_initialize_task
  | Hot.cpp_initialize => None
  end.

Section Resolution.

(** The address the linker gives each callback's symbol in the image
    that holds this file: the weak definition of lines 148-162 (or of
    the C++ stubs), or a strong one. *)
Variable static_address : Hot.user_function -> Z.

(** [setup_user_functions], the constructor of priority 102. *)
Definition setup_user_functions (HOT_TABLE : Hot.hot_table) : user_pointers :=
  {| user_initialize :=
       if negb (Hot.functions HOT_TABLE Hot.initialize =? 0)
       then Hot.functions HOT_TABLE Hot.initialize
       else static_address Hot.initialize;
     user_cpp_initialize :=
       if negb (Hot.functions HOT_TABLE Hot.cpp_initialize =? 0)
       then Hot.functions HOT_TABLE Hot.cpp_initialize
       else static_address Hot.cpp_initialize |}.

Definition callee_address (c : callee) : Z :=
  match c with
  | through_pointer a => a
  | through_symbol F => static_address F
  end.

(** The address of the code that runs when the daemon starts the task
    of callback [F], the pointers having been set up from the table
    [at_startup]. *)
Definition daemon_invokes (at_startup : Hot.hot_table) (F : Hot.user_function) : option Z :=
  match task_of_callback F with
  | Some fn =>
      match task_callee (setup_user_functions at_startup) fn with
      | Some c => Some (callee_address c)
      | None => None
      end
  | None => None
  end.

(** The rule of the specification: the slot of the table when it is not
    null, the statically linked implementation otherwise. *)
Definition spec_resolution (tbl : Hot.hot_table) (F : Hot.user_function) : Z :=
  if Hot.functions tbl F =? 0 then static_address F else Hot.functions tbl F.

End Resolution.

(** ** Flags of a status word *)

Lemma is_set_testbit (x d : Z) :
  0 <= d -> is_set x (Z.shiftl 1 d) = Z.testbit x d.
Proof.
  intros Hd. unfold is_set. rewrite Z.shiftl_1_l.
  destruct (Z.testbit x d) eqn:Hx.
  - destruct (Z.land x (2 ^ d) =? 0) eqn:E; [|reflexivity].
    apply Z.eqb_eq in E.
    assert (Hb : Z.testbit (Z.land x (2 ^ d)) d = true)
      by (rewrite Z.land_spec, Hx, Z.pow2_bits_true by lia; reflexivity).
    rewrite E, Z.bits_0 in Hb. discriminate.
  - assert (E : Z.land x (2 ^ d) = 0).
    { apply Z.bits_inj'. intros i Hi. rewrite Z.land_spec, Z.bits_0, Z.pow2_bits_eqb by lia.
      destruct (d =? i) eqn:Ei; [|apply andb_false_r].
      apply Z.eqb_eq in Ei. subst i. rewrite Hx. reflexivity. }
    rewrite E. reflexivity.
Qed.

Lemma flag_differs (x y d : Z) :
  0 <= d ->
  is_set (Z.lxor x y) (Z.shiftl 1 d) = xorb (Z.testbit x d) (Z.testbit y d).
Proof. intros Hd. rewrite is_set_testbit by exact Hd. apply Z.lxor_spec. Qed.

Lemma both_flags_set (x d c : Z) :
  0 <= d -> 0 <= c ->
  (Z.land x (Z.lor (Z.shiftl 1 d) (Z.shiftl 1 c)) =? Z.lor (Z.shiftl 1 d) (Z.shiftl 1 c)) =
  Z.testbit x d && Z.testbit x c.
Proof.
  intros Hd Hc. rewrite !Z.shiftl_1_l.
  destruct (Z.testbit x d && Z.testbit x c) eqn:Hx.
  - apply andb_true_iff in Hx as [Hxd Hxc]. apply Z.eqb_eq.
    apply Z.bits_inj'. intros i Hi.
    rewrite Z.land_spec, Z.lor_spec, !Z.pow2_bits_eqb by lia.
    destruct (d =? i) eqn:Ed; [apply Z.eqb_eq in Ed; subst i; now rewrite Hxd|].
    destruct (c =? i) eqn:Ec; [apply Z.eqb_eq in Ec; subst i; now rewrite Hxc|].
    apply andb_false_r.
  - apply Z.eqb_neq. intros E.
    assert (Hbit : forall i, 0 <= i -> (i = d \/ i = c) -> Z.testbit x i = true).
    { intros i Hi Hor.
      assert (Hm : Z.testbit (Z.lor (2 ^ d) (2 ^ c)) i = true).
      { rewrite Z.lor_spec, !Z.pow2_bits_eqb by lia.
        destruct Hor as [->| ->]; rewrite Z.eqb_refl; [reflexivity|apply orb_true_r]. }
      rewrite <- E, Z.land_spec in Hm. now apply andb_true_iff in Hm as [? _]. }
    rewrite (Hbit d), (Hbit c) in Hx by (try lia; tauto). discriminate.
Qed.

(** ** The scheduler's operations *)

Lemma length_task_delete (sched : list tcb) (task : task_t) :
  length (task_delete sched task) = length sched.
Proof.
  unfold task_delete. destruct task as [h|]; [|reflexivity].
  destruct (sched !! h); [apply length_insert|reflexivity].
Qed.

Lemma deletable_iff (ts : task_state_e_t) :
  deletable ts = true <->
  ts = E_TASK_STATE_READY \/ ts = E_TASK_STATE_BLOCKED \/ ts = E_TASK_STATE_SUSPENDED.
Proof.
  destruct ts; simpl; split; intros H; try discriminate; try tauto;
    destruct H as [H|[H|H]]; discriminate.
Qed.

Lemma do_background_operations_eq (s : state) :
  do_background_operations s =
  {| time := time s; status := status s; competition_task := competition_task s;
     tasks := tasks s; log := log s ++ background_calls |}.
Proof.
  unfold do_background_operations, emit, background_calls. simpl.
  f_equal. now rewrite <- !app_assoc.
Qed.

Lemma retire_outgoing_eq (s : state) :
  let ts := task_get_state (tasks s) (competition_task s) in
  retire_outgoing s =
  {| time := time s; status := status s; competition_task := competition_task s;
     tasks := if deletable ts then task_delete (tasks s) (competition_task s) else tasks s;
     log := log s ++ call_task_get_state (competition_task s) ts ::
              (if deletable ts then [call_task_delete (competition_task s)] else []) |}.
Proof.
  cbv zeta. unfold retire_outgoing, emit.
  destruct (deletable (task_get_state (tasks s) (competition_task s))); simpl.
  - f_equal. now rewrite <- app_assoc.
  - reflexivity.
Qed.

(** ** Counting the live tasks of the slot *)

Lemma filter_none {A : Type} (P : A -> bool) (l : list A) :
  (forall h t, l !! h = Some t -> P t = false) -> List.filter P l = [].
Proof.
  induction l as [|x l IH]; intros H; simpl; [reflexivity|].
  rewrite (H 0%nat x eq_refl). apply IH. intros h t Hl. exact (H (S h) t Hl).
Qed.

Lemma filter_at_most_one {A : Type} (P : A -> bool) (l : list A) (i : nat) :
  (forall h t, l !! h = Some t -> P t = true -> h = i) ->
  (length (List.filter P l) <= 1)%nat.
Proof.
  revert i. induction l as [|x l IH]; intros i H; simpl; [lia|].
  destruct (P x) eqn:E.
  - assert (Hi : 0%nat = i) by exact (H 0%nat x eq_refl E).
    rewrite filter_none; [simpl; lia|].
    intros h t Hl. destruct (P t) eqn:Et; [|reflexivity].
    pose proof (H (S h) t Hl Et). lia.
  - apply (IH (Nat.pred i)). intros h t Hl Et.
    pose proof (H (S h) t Hl Et). lia.
Qed.

Lemma slot_ok_at_most_one (sched : list tcb) (task : task_t) :
  slot_ok sched task -> (live_mode_tasks sched <= 1)%nat.
Proof.
  intros Hok. unfold live_mode_tasks. destruct task as [i|].
  - apply (filter_at_most_one _ _ i). intros h t Hl Ht.
    destruct (Hok h t Hl Ht) as [[= ->] _]. reflexivity.
  - rewrite filter_none; [simpl; lia|]. intros h t Hl.
    destruct (is_live_mode_task t) eqn:Ht; [|reflexivity].
    destruct (Hok h t Hl Ht) as [[=] _].
Qed.

Lemma live_mode_task_inv (t : tcb) :
  is_live_mode_task t = true ->
  t_storage t = competition_task_buffer /\ is_live (t_state t) = true.
Proof. unfold is_live_mode_task. destruct (t_storage t); try discriminate. tauto. Qed.

Lemma mark_deleted_not_live (t : tcb) : is_live_mode_task (mark_deleted t) = false.
Proof. unfold is_live_mode_task, mark_deleted. simpl. now destruct (t_storage t). Qed.

(** Lines 108-115 leave no live task in the slot's storage. *)
Lemma retired_slot_empty (sched : list tcb) (task : task_t) :
  slot_ok sched task ->
  forall h t,
    (if deletable (task_get_state sched task) then task_delete sched task else sched) !! h
      = Some t ->
    is_live_mode_task t = false.
Proof.
  intros Hok h t Hl.
  destruct (is_live_mode_task t) eqn:Ht; [exfalso|reflexivity].
  destruct (deletable (task_get_state sched task)) eqn:Hd.
  - unfold task_delete in Hl. destruct task as [h0|].
    + destruct (sched !! h0) as [t0|] eqn:H0.
      * destruct (decide (h0 = h)) as [->|Hne].
        -- rewrite list_lookup_insert_eq in Hl by (eapply lookup_lt_Some; eassumption).
           injection Hl as <-. rewrite mark_deleted_not_live in Ht. discriminate.
        -- rewrite list_lookup_insert_ne in Hl by exact Hne.
           destruct (Hok h t Hl Ht) as [[= ->] _]. congruence.
      * destruct (Hok h t Hl Ht) as [[= ->] _]. congruence.
    + destruct (Hok h t Hl Ht) as [[=] _].
  - destruct (Hok h t Hl Ht) as [-> Hrun].
    unfold task_get_state in Hd. rewrite Hl in Hd.
    apply live_mode_task_inv in Ht as [_ Hlive].
    destruct (t_state t); simpl in *; congruence.
Qed.

(** A task created in the slot over a scheduler with no live task there
    is the only one. *)
Lemma created_slot_ok (sched : list tcb) (fn : task_fn_t) (name : string) (n : nat) :
  (forall h t, sched !! h = Some t -> is_live_mode_task t = false) ->
  length sched = n ->
  slot_ok (sched ++ [ {| t_fn := fn; t_name := name; t_storage := competition_task_buffer;
                         t_state := E_TASK_STATE_READY |} ]) (Some n).
Proof.
  intros Hdead Hlen h t Hl Ht.
  apply lookup_app_Some in Hl as [Hl|[Hge Hl]].
  - rewrite (Hdead h t Hl) in Ht. discriminate.
  - destruct (h - length sched)%nat as [|k] eqn:Hk; simpl in Hl; [|discriminate].
    injection Hl as <-. simpl. split; [f_equal; lia|discriminate].
Qed.

Lemma env_step_slot_ok (s s' : state) :
  env_step s s' ->
  slot_ok (tasks s) (competition_task s) ->
  slot_ok (tasks s') (competition_task s').
Proof.
  intros (_ & _ & Hc & _ & Henv) Hok h t' Hl Ht'.
  destruct (live_mode_task_inv t' Ht') as [Hst Hlive].
  destruct (Henv h t' Hl Hst) as (Hrun & t & Hlt & Hstt & _ & Hback).
  split; [|exact Hrun]. rewrite Hc.
  apply (Hok h t Hlt). unfold is_live_mode_task. rewrite Hstt. now apply Hback.
Qed.

Section Transitions.

Variables disabled_bit autonomous_bit connected_bit : Z.

Local Abbreviation iteration := (steady_iteration disabled_bit autonomous_bit connected_bit).
Local Abbreviation chosen := (select_state disabled_bit autonomous_bit connected_bit).
Local Abbreviation held := (held_disabled disabled_bit).
Local Abbreviation fires := (transition_fires disabled_bit).

(** The priority rule in the words of the specification, on the flags of
    the old and the new status. *)
Definition spec_next_state (old new : Z) : state_task :=
  if xorb (Z.testbit new connected_bit) (Z.testbit old connected_bit) &&
     (Z.testbit new disabled_bit && Z.testbit new connected_bit)
  then E_COMP_INIT_TASK
  else if Z.testbit new disabled_bit then E_DISABLED_TASK
  else if Z.testbit new autonomous_bit then E_AUTON_TASK
  else E_OPCONTROL_TASK.

(** *** The three ways through an iteration *)

Lemma iteration_unchanged (s : state) (guard fresh : Z) :
  guard = status s ->
  iteration guard fresh s =
  {| time := (time s + 2) mod word_modulus;
     status := status s;
     competition_task := competition_task s;
     tasks := tasks s;
     log := log s ++ background_calls ++
              [call_competition_get_status guard; call_task_delay_until (time s) 2] |}.
Proof.
  intros ->. unfold steady_iteration. rewrite do_background_operations_eq.
  cbn [emit status time tasks log competition_task].
  rewrite Z.eqb_refl. unfold task_delay_until, set_time, emit.
  cbn [status time tasks log competition_task].
  f_equal. now rewrite <- !app_assoc.
Qed.

Lemma iteration_held (s : state) (guard fresh : Z) :
  guard <> status s ->
  held (status s) fresh = true ->
  iteration guard fresh s =
  {| time := time s;
     status := fresh;
     competition_task := competition_task s;
     tasks := tasks s;
     log := log s ++ background_calls ++
              [call_competition_get_status guard; call_competition_get_status fresh] |}.
Proof.
  intros Hne Hheld. unfold steady_iteration. rewrite do_background_operations_eq.
  cbn [emit set_status status time tasks log competition_task].
  destruct (status s =? guard) eqn:E; [apply Z.eqb_eq in E; congruence|].
  rewrite Hheld. unfold set_status, emit.
  cbn [status time tasks log competition_task].
  f_equal. now rewrite <- !app_assoc.
Qed.

Lemma iteration_fires (s : state) (guard fresh : Z) :
  fires guard fresh s = true ->
  let ts := task_get_state (tasks s) (competition_task s) in
  let st := chosen (status s) fresh in
  let sched := if deletable ts then task_delete (tasks s) (competition_task s) else tasks s in
  iteration guard fresh s =
  {| time := (time s + 2) mod word_modulus;
     status := fresh;
     competition_task := Some (length (tasks s));
     tasks := sched ++ [ {| t_fn := task_fns st; t_name := task_names st;
                            t_storage := competition_task_buffer;
                            t_state := E_TASK_STATE_READY |} ];
     log := log s ++ background_calls ++
              [call_competition_get_status guard; call_competition_get_status fresh;
               call_task_get_state (competition_task s) ts] ++
              (if deletable ts then [call_task_delete (competition_task s)] else []) ++
              [call_task_create_static (task_fns st) (task_names st)
                 competition_task_buffer (Some (length (tasks s)));
               call_task_delay_until (time s) 2] |}.
Proof.
  intros Hf. cbv zeta. unfold transition_fires in Hf.
  apply andb_true_iff in Hf as [Hne Hheld].
  apply negb_true_iff in Hne, Hheld.
  unfold steady_iteration. rewrite do_background_operations_eq.
  unfold set_status, emit. cbn [status time tasks log competition_task].
  rewrite Hne, Hheld, retire_outgoing_eq.
  cbn [status time tasks log competition_task].
  unfold start_in_slot, task_create_static, task_delay_until, set_time, emit.
  cbn [status time tasks log competition_task].
  assert (Hlen : length (if deletable (task_get_state (tasks s) (competition_task s))
                         then task_delete (tasks s) (competition_task s)
                         else tasks s) = length (tasks s))
    by (destruct (deletable _); [apply length_task_delete|reflexivity]).
  rewrite Hlen. f_equal.
  repeat rewrite <- app_assoc. simpl.
  destruct (deletable _); reflexivity.
Qed.

(** *** The guards, read on the flags *)

Lemma select_state_spec (old new : Z) :
  0 <= disabled_bit -> 0 <= autonomous_bit -> 0 <= connected_bit ->
  chosen old new = spec_next_state old new.
Proof.
  intros Hd Ha Hc. unfold select_state, spec_next_state.
  unfold COMPETITION_DISABLED, COMPETITION_AUTONOMOUS, COMPETITION_CONNECTED.
  rewrite flag_differs, both_flags_set, !is_set_testbit by assumption.
  reflexivity.
Qed.

Lemma held_disabled_spec (old new : Z) :
  0 <= disabled_bit ->
  held old new = Z.testbit new disabled_bit && Z.testbit old disabled_bit.
Proof.
  intros Hd. unfold held_disabled, COMPETITION_DISABLED.
  now rewrite !is_set_testbit by assumption.
Qed.

Lemma new_calls_app (s s' : state) (l : list call) :
  log s' = log s ++ l -> new_calls s s' = l.
Proof. intros H. unfold new_calls. rewrite H. apply drop_app_length. Qed.

(** C1.  An iteration whose test of line 87 sees a status other than the
    old one ([guard], which is [new] itself when the status does not move
    between the two reads of the iteration, so that the condition is
    old <> new), and in which the disabled flag is not set in both the old
    and the new status, starts in the slot the task of the state that the
    priority rule names: competition initialisation if the connected flag
    differs and the new status is disabled and connected, else disabled
    if the new status is disabled, else autonomous if it is autonomous,
    else operator control. *)
Theorem next_state_by_priority (s : state) (guard new : Z) :
  0 <= disabled_bit -> 0 <= autonomous_bit -> 0 <= connected_bit ->
  guard <> status s ->
  ~ (Z.testbit (status s) disabled_bit = true /\ Z.testbit new disabled_bit = true) ->
  let st := spec_next_state (status s) new in
  let s' := iteration guard new s in
  chosen (status s) new = st /\
  status s' = new /\
  competition_task s' = Some (length (tasks s)) /\
  tasks s' !! length (tasks s) =
    Some {| t_fn := task_fns st; t_name := task_names st;
            t_storage := competition_task_buffer; t_state := E_TASK_STATE_READY |}.
Proof.
  intros Hd Ha Hc Hne Hnot. cbv zeta.
  assert (Hf : fires guard new s = true).
  { unfold transition_fires. rewrite held_disabled_spec by assumption.
    apply andb_true_iff. split; apply negb_true_iff.
    - apply Z.eqb_neq. congruence.
    - destruct (Z.testbit new disabled_bit) eqn:E1;
        destruct (Z.testbit (status s) disabled_bit) eqn:E2; try reflexivity.
      exfalso. apply Hnot. now split. }
  rewrite (iteration_fires s guard new Hf).
  cbn [status time tasks log competition_task].
  rewrite <- select_state_spec by assumption.
  repeat split.
  apply list_lookup_middle.
  destruct (deletable _); [now rewrite length_task_delete|reflexivity].
Qed.

(** C2.  When the disabled flag is set in both the old and the new status
    the iteration changes nothing about the slot, whatever else differs
    between the two: the handle and the scheduler are as before, and no
    task is deleted or created. *)
Theorem disabled_in_both_suppresses (s : state) (guard new : Z) :
  0 <= disabled_bit ->
  Z.testbit (status s) disabled_bit = true ->
  Z.testbit new disabled_bit = true ->
  let s' := iteration guard new s in
  competition_task s' = competition_task s /\
  tasks s' = tasks s /\
  Forall (fun c => is_slot_change c = false) (new_calls s s').
Proof.
  intros Hd Hold Hnew. cbv zeta.
  destruct (Z.eq_dec guard (status s)) as [Heq|Hne].
  - rewrite (iteration_unchanged s guard new Heq).
    split; [reflexivity|]. split; [reflexivity|].
    erewrite new_calls_app by reflexivity.
    unfold background_calls. repeat constructor.
  - assert (Hheld : held (status s) new = true)
      by (rewrite held_disabled_spec, Hold, Hnew by assumption; reflexivity).
    rewrite (iteration_held s guard new Hne Hheld).
    split; [reflexivity|]. split; [reflexivity|].
    erewrite new_calls_app by reflexivity.
    unfold background_calls. repeat constructor.
Qed.

(** C9.  When the status polled by the test of line 87 is the old one,
    the iteration is the service step, the poll and the sleep: the status,
    the handle and the scheduler are as before, the log gains no call to
    the scheduler but the sleep, and the second read of the status is not
    made, so that nothing depends on what it would have returned. *)
Theorem unchanged_status_skips (s : state) (guard fresh : Z) :
  guard = status s ->
  let s' := iteration guard fresh s in
  status s' = status s /\
  competition_task s' = competition_task s /\
  tasks s' = tasks s /\
  time s' = (time s + 2) mod word_modulus /\
  new_calls s s' =
    background_calls ++
    [call_competition_get_status guard; call_task_delay_until (time s) 2] /\
  forall other, iteration guard other s = s'.
Proof.
  intros Heq. cbv zeta. rewrite (iteration_unchanged s guard fresh Heq).
  repeat split.
  - now apply new_calls_app.
  - intros other. apply iteration_unchanged. exact Heq.
Qed.

(** C7.  On a transition the daemon asks for the state of the outgoing
    task and calls [task_delete] on it exactly when that state is ready,
    blocked or suspended; for any other state (deleted, invalid, running)
    the iteration makes no call of [task_delete] at all.  The deletion,
    when made, is the call just before the creation of the replacement. *)
Theorem outgoing_deleted_iff_schedulable (s : state) (guard new : Z) :
  fires guard new s = true ->
  let ts := task_get_state (tasks s) (competition_task s) in
  let st := chosen (status s) new in
  let s' := iteration guard new s in
  let replacement :=
    {| t_fn := task_fns st; t_name := task_names st;
       t_storage := competition_task_buffer; t_state := E_TASK_STATE_READY |} in
  (deletable ts = true <->
   ts = E_TASK_STATE_READY \/ ts = E_TASK_STATE_BLOCKED \/ ts = E_TASK_STATE_SUSPENDED) /\
  new_calls s s' =
    background_calls ++
    [call_competition_get_status guard; call_competition_get_status new;
     call_task_get_state (competition_task s) ts] ++
    (if deletable ts then [call_task_delete (competition_task s)] else []) ++
    [call_task_create_static (task_fns st) (task_names st) competition_task_buffer
       (Some (length (tasks s)));
     call_task_delay_until (time s) 2] /\
  (forall h, In (call_task_delete h) (new_calls s s') <->
             deletable ts = true /\ h = competition_task s) /\
  (ts = E_TASK_STATE_DELETED \/ ts = E_TASK_STATE_INVALID \/ ts = E_TASK_STATE_RUNNING ->
   forall h, ~ In (call_task_delete h) (new_calls s s')) /\
  tasks s' =
    (if deletable ts then task_delete (tasks s) (competition_task s) else tasks s) ++
    [replacement].
Proof.
  intros Hf. cbv zeta.
  assert (Hcalls : new_calls s (iteration guard new s) =
    background_calls ++
    [call_competition_get_status guard; call_competition_get_status new;
     call_task_get_state (competition_task s)
       (task_get_state (tasks s) (competition_task s))] ++
    (if deletable (task_get_state (tasks s) (competition_task s))
     then [call_task_delete (competition_task s)] else []) ++
    [call_task_create_static (task_fns (chosen (status s) new))
       (task_names (chosen (status s) new)) competition_task_buffer
       (Some (length (tasks s)));
     call_task_delay_until (time s) 2]).
  { apply new_calls_app. rewrite (iteration_fires s guard new Hf). reflexivity. }
  assert (Hdel : forall h, In (call_task_delete h) (new_calls s (iteration guard new s)) <->
                  deletable (task_get_state (tasks s) (competition_task s)) = true /\
                  h = competition_task s).
  { intros h. rewrite Hcalls. unfold background_calls.
    destruct (deletable (task_get_state (tasks s) (competition_task s))); simpl; split.
    - intros H. repeat (destruct H as [H|H]; try discriminate).
      + injection H as <-. now split.
      + destruct H.
    - intros [_ ->]. do 10 right. now left.
    - intros H. repeat (destruct H as [H|H]; try discriminate). destruct H.
    - intros [H _]. discriminate. }
  split; [apply deletable_iff|]. split; [exact Hcalls|]. split; [exact Hdel|]. split.
  - intros Hts h Hin. apply Hdel in Hin as [Hd _].
    destruct Hts as [Hts|[Hts|Hts]]; rewrite Hts in Hd; discriminate.
  - rewrite (iteration_fires s guard new Hf). reflexivity.
Qed.

(** *** The slot along a run of the daemon *)

Lemma do_background_operations_slot (s : state) :
  tasks (do_background_operations s) = tasks s /\
  competition_task (do_background_operations s) = competition_task s.
Proof. rewrite do_background_operations_eq. now split. Qed.

Lemma iteration_slot_ok (s : state) (guard fresh : Z) :
  slot_ok (tasks s) (competition_task s) ->
  slot_ok (tasks (iteration guard fresh s)) (competition_task (iteration guard fresh s)).
Proof.
  intros Hok.
  destruct (Z.eq_dec guard (status s)) as [Heq|Hne].
  - now rewrite (iteration_unchanged s guard fresh Heq).
  - destruct (held (status s) fresh) eqn:Hheld.
    + now rewrite (iteration_held s guard fresh Hne Hheld).
    + assert (Hf : fires guard fresh s = true).
      { unfold transition_fires. rewrite Hheld.
        apply andb_true_iff. split; [|reflexivity].
        apply negb_true_iff, Z.eqb_neq. congruence. }
      rewrite (iteration_fires s guard fresh Hf).
      cbn [tasks competition_task].
      apply created_slot_ok.
      * now apply retired_slot_empty.
      * destruct (deletable _); [apply length_task_delete|reflexivity].
Qed.

Lemma reachable_slot_ok (p : phase) (s : state) :
  reachable disabled_bit autonomous_bit connected_bit p s ->
  slot_ok (tasks s) (competition_task s).
Proof.
  induction 1 as [sched t0 t1 Hdead|s _ IH|s _ IH|s guard fresh _ IH|p s s' _ IH Henv].
  - unfold daemon_prologue, start_in_slot, task_create_static, set_time, set_status, emit.
    cbn [tasks competition_task entry_state].
    apply created_slot_ok; [|reflexivity].
    intros h t Hl. rewrite Forall_lookup in Hdead. exact (Hdead h t Hl).
  - unfold bootstrap_iteration.
    destruct (do_background_operations_slot
                (emit (call_task_notify_take true 2 false) s)) as [-> ->].
    exact IH.
  - exact IH.
  - now apply iteration_slot_ok.
  - exact (env_step_slot_ok s s' Henv IH).
Qed.

(** C8.  In every state the daemon reaches (after the prologue that
    creates the initialisation task, after each pass of the bootstrap
    loop, after each iteration of the steady loop, with the other tasks
    running in between) at most one live task occupies the storage of the
    mode slot, and it is the one the handle names.  Within a transition,
    once the outgoing task has been dealt with and before the replacement
    is created, no live task occupies it: the two never coexist. *)
Theorem at_most_one_mode_task (p : phase) (s : state) :
  reachable disabled_bit autonomous_bit connected_bit p s ->
  (live_mode_tasks (tasks s) <= 1)%nat /\
  (forall h t, tasks s !! h = Some t -> is_live_mode_task t = true ->
               competition_task s = Some h) /\
  live_mode_tasks (tasks (retire_outgoing s)) = 0%nat.
Proof.
  intros Hr. pose proof (reachable_slot_ok p s Hr) as Hok.
  split; [exact (slot_ok_at_most_one _ _ Hok)|]. split.
  - intros h t Hl Ht. exact (proj1 (Hok h t Hl Ht)).
  - rewrite retire_outgoing_eq. cbn [tasks]. unfold live_mode_tasks.
    rewrite filter_none; [reflexivity|]. now apply retired_slot_empty.
Qed.

(** *** Service steps and sleeps *)

Lemma service_steps_app (l k : list call) :
  service_steps (l ++ k) = (service_steps l + service_steps k)%nat.
Proof. unfold service_steps. now rewrite List.filter_app, length_app. Qed.

Lemma deadline_sleeps_app (l k : list call) :
  deadline_sleeps (l ++ k) = (deadline_sleeps l + deadline_sleeps k)%nat.
Proof. unfold deadline_sleeps. now rewrite List.filter_app, length_app. Qed.

(** Every iteration runs the service step once. *)
Lemma iteration_service_steps (s : state) (guard fresh : Z) :
  service_steps (log (iteration guard fresh s)) = S (service_steps (log s)).
Proof.
  destruct (Z.eq_dec guard (status s)) as [Heq|Hne].
  - rewrite (iteration_unchanged s guard fresh Heq). cbn [log].
    rewrite service_steps_app. unfold service_steps. simpl. lia.
  - destruct (held (status s) fresh) eqn:Hheld.
    + rewrite (iteration_held s guard fresh Hne Hheld). cbn [log].
      rewrite service_steps_app. unfold service_steps. simpl. lia.
    + assert (Hf : fires guard fresh s = true).
      { unfold transition_fires. rewrite Hheld.
        apply andb_true_iff. split; [|reflexivity].
        apply negb_true_iff, Z.eqb_neq. congruence. }
      rewrite (iteration_fires s guard fresh Hf). cbn [log].
      rewrite service_steps_app. unfold service_steps.
      destruct (deletable _); simpl; lia.
Qed.

(** An iteration sleeps once, unless it leaves through the [continue] of
    line 94, in which case it does not sleep. *)
Lemma iteration_deadline_sleeps (s : state) (guard fresh : Z) :
  deadline_sleeps (log (iteration guard fresh s)) =
  (deadline_sleeps (log s) +
   if leaves_by_continue disabled_bit guard fresh s then 0 else 1)%nat.
Proof.
  unfold leaves_by_continue.
  destruct (Z.eq_dec guard (status s)) as [Heq|Hne].
  - rewrite (iteration_unchanged s guard fresh Heq). cbn [log].
    rewrite deadline_sleeps_app. subst guard. rewrite Z.eqb_refl. reflexivity.
  - assert (Hg : (status s =? guard) = false) by (apply Z.eqb_neq; congruence).
    rewrite Hg. cbn [negb andb].
    destruct (held (status s) fresh) eqn:Hheld.
    + rewrite (iteration_held s guard fresh Hne Hheld). cbn [log].
      rewrite deadline_sleeps_app. reflexivity.
    + assert (Hf : fires guard fresh s = true)
        by (unfold transition_fires; now rewrite Hheld, Hg).
      rewrite (iteration_fires s guard fresh Hf). cbn [log].
      rewrite deadline_sleeps_app. unfold deadline_sleeps at 2.
      destruct (deletable _); reflexivity.
Qed.

(** Over any run the service step has run once per iteration. *)
Lemma run_service_steps (polls : list (Z * Z)) (s : state) :
  service_steps (log (run disabled_bit autonomous_bit connected_bit polls s)) =
  (service_steps (log s) + length polls)%nat.
Proof.
  revert s. induction polls as [|[guard fresh] rest IH]; intros s; simpl; [lia|].
  rewrite IH, iteration_service_steps. lia.
Qed.

(** Over any run the daemon has slept at most once per iteration. *)
Lemma run_deadline_sleeps (polls : list (Z * Z)) (s : state) :
  (deadline_sleeps (log (run disabled_bit autonomous_bit connected_bit polls s)) <=
   deadline_sleeps (log s) + length polls)%nat.
Proof.
  revert s. induction polls as [|[guard fresh] rest IH]; intros s; simpl; [lia|].
  etransitivity; [apply IH|]. rewrite iteration_deadline_sleeps.
  destruct (leaves_by_continue _ _ _ _); lia.
Qed.

End Transitions.

(** ** Entry points *)

Section ResolutionFacts.

Variable static_address : Hot.user_function -> Z.

(** [initialize] is bound by the rule: the slot when not null, the
    statically linked symbol otherwise. *)
Lemma initialize_resolved (tbl : Hot.hot_table) :
  daemon_invokes static_address tbl Hot.initialize =
  Some (spec_resolution static_address tbl Hot.initialize).
Proof.
  unfold daemon_invokes, spec_resolution. simpl.
  now destruct (Hot.functions tbl Hot.initialize =? 0).
Qed.

(** The other four callbacks are called through their symbols: the table
    plays no part. *)
Lemma symbol_bound (tbl : Hot.hot_table) (F : Hot.user_function) :
  F = Hot.autonomous \/ F = Hot.opcontrol \/ F = Hot.disabled \/
  F = Hot.competition_initialize ->
  daemon_invokes static_address tbl F = Some (static_address F).
Proof. intros [->|[->|[->| ->]]]; reflexivity. Qed.

End ResolutionFacts.

(** ** A concrete controller *)

(** In what follows the disabled flag is bit 0 of the status word, the
    autonomous flag bit 1 and the connected flag bit 2. *)

(** The daemon's own task. *)
Definition daemon_tcb : tcb :=
  {| t_fn := _system_daemon_task; t_name := "PROS System Daemon";
     t_storage := system_daemon_task_buffer; t_state := E_TASK_STATE_RUNNING |}.

(** Operator control is running, the robot is enabled and not connected. *)
Definition in_opcontrol : state :=
  {| time := 1000;
     status := 0;
     competition_task := Some 1%nat;
     tasks := [ daemon_tcb;
                {| t_fn := _opcontrol_task; t_name := task_names E_OPCONTROL_TASK;
                   t_storage := competition_task_buffer;
                   t_state := E_TASK_STATE_BLOCKED |} ];
     log := [] |}.

(** The disabled task is running, the robot is disabled and not connected. *)
Definition in_disabled : state :=
  {| time := 1000;
     status := 1;
     competition_task := Some 1%nat;
     tasks := [ daemon_tcb;
                {| t_fn := _disabled_task; t_name := task_names E_DISABLED_TASK;
                   t_storage := competition_task_buffer;
                   t_state := E_TASK_STATE_READY |} ];
     log := [] |}.

(** The daemon from its start to the end of its first steady iteration. *)
Definition after_first_iteration : state :=
  steady_iteration 0 1 2 0 0
    (bootstrap_exit (bootstrap_iteration (daemon_prologue 5 7 (entry_state [daemon_tcb])))).

(** The scenarios of the specification. *)
Example autonomous_cleared_selects_opcontrol : select_state 0 1 2 2 0 = E_OPCONTROL_TASK.
Proof. reflexivity. Qed.

Example autonomous_set_selects_autonomous : select_state 0 1 2 0 2 = E_AUTON_TASK.
Proof. reflexivity. Qed.

Example connecting_while_disabled_selects_comp_init :
  select_state 0 1 2 0 5 = E_COMP_INIT_TASK.
Proof. reflexivity. Qed.

Example disabling_while_connected_selects_disabled :
  select_state 0 1 2 4 5 = E_DISABLED_TASK.
Proof. reflexivity. Qed.

Example first_iteration_starts_opcontrol :
  competition_task after_first_iteration = Some 2%nat /\
  tasks after_first_iteration =
    [ daemon_tcb;
      {| t_fn := _initialize_task; t_name := "User Initialization (PROS)";
         t_storage := competition_task_buffer; t_state := E_TASK_STATE_DELETED |};
      {| t_fn := _opcontrol_task; t_name := "User Operator Control (PROS)";
         t_storage := competition_task_buffer; t_state := E_TASK_STATE_READY |} ].
Proof. split; reflexivity. Qed.

Lemma next_state_by_priority_witness :
  2 <> status in_opcontrol /\
  select_state 0 1 2 (status in_opcontrol) 2 = spec_next_state 0 1 2 (status in_opcontrol) 2 /\
  status (steady_iteration 0 1 2 2 2 in_opcontrol) = 2 /\
  competition_task (steady_iteration 0 1 2 2 2 in_opcontrol) =
    Some (length (tasks in_opcontrol)) /\
  tasks (steady_iteration 0 1 2 2 2 in_opcontrol) !! length (tasks in_opcontrol) =
    Some {| t_fn := task_fns (spec_next_state 0 1 2 (status in_opcontrol) 2);
            t_name := task_names (spec_next_state 0 1 2 (status in_opcontrol) 2);
            t_storage := competition_task_buffer; t_state := E_TASK_STATE_READY |}.
Proof.
  split; [discriminate|].
  apply (next_state_by_priority 0 1 2 in_opcontrol 2 2); try lia.
  - discriminate.
  - intros [H _]. discriminate H.
Defined.

Lemma disabled_in_both_suppresses_witness :
  Z.testbit (status in_disabled) 0 = true /\
  Z.testbit 3 0 = true /\
  competition_task (steady_iteration 0 1 2 3 3 in_disabled) = competition_task in_disabled /\
  tasks (steady_iteration 0 1 2 3 3 in_disabled) = tasks in_disabled /\
  Forall (fun c => is_slot_change c = false)
    (new_calls in_disabled (steady_iteration 0 1 2 3 3 in_disabled)).
Proof.
  split; [reflexivity|]. split; [reflexivity|].
  apply (disabled_in_both_suppresses 0 1 2 in_disabled 3 3); [lia|reflexivity|reflexivity].
Defined.

Lemma unchanged_status_skips_witness :
  status (steady_iteration 0 1 2 0 0 in_opcontrol) = status in_opcontrol /\
  competition_task (steady_iteration 0 1 2 0 0 in_opcontrol) = competition_task in_opcontrol /\
  tasks (steady_iteration 0 1 2 0 0 in_opcontrol) = tasks in_opcontrol /\
  time (steady_iteration 0 1 2 0 0 in_opcontrol) = (time in_opcontrol + 2) mod word_modulus /\
  new_calls in_opcontrol (steady_iteration 0 1 2 0 0 in_opcontrol) =
    background_calls ++
    [call_competition_get_status 0; call_task_delay_until (time in_opcontrol) 2] /\
  forall other, steady_iteration 0 1 2 0 other in_opcontrol =
                steady_iteration 0 1 2 0 0 in_opcontrol.
Proof.
  apply (unchanged_status_skips 0 1 2 in_opcontrol 0 0). reflexivity.
Defined.

Lemma outgoing_deleted_iff_schedulable_witness :
  transition_fires 0 2 2 in_opcontrol = true /\
  new_calls in_opcontrol (steady_iteration 0 1 2 2 2 in_opcontrol) =
    background_calls ++
    [call_competition_get_status 2; call_competition_get_status 2;
     call_task_get_state (Some 1%nat) E_TASK_STATE_BLOCKED;
     call_task_delete (Some 1%nat);
     call_task_create_static _autonomous_task "User Autonomous (PROS)"
       competition_task_buffer (Some 2%nat);
     call_task_delay_until 1000 2].
Proof.
  split; [reflexivity|].
  exact (proj1 (proj2
    (outgoing_deleted_iff_schedulable 0 1 2 in_opcontrol 2 2 eq_refl))).
Defined.

Lemma after_first_iteration_reachable : reachable 0 1 2 Steady after_first_iteration.
Proof.
  apply reach_iteration, reach_notified, reach_bootstrap, reach_prologue.
  repeat constructor.
Defined.

Lemma at_most_one_mode_task_witness :
  (live_mode_tasks (tasks after_first_iteration) <= 1)%nat /\
  (forall h t, tasks after_first_iteration !! h = Some t -> is_live_mode_task t = true ->
               competition_task after_first_iteration = Some h) /\
  live_mode_tasks (tasks (retire_outgoing after_first_iteration)) = 0%nat.
Proof.
  exact (at_most_one_mode_task 0 1 2 Steady after_first_iteration
           after_first_iteration_reachable).
Defined.

(** C6 (the code departs from it).  The robot is disabled and the
    autonomous flag comes on: the status goes from [1] to [3].  The
    iteration that sees the change runs the service step, reads the
    status twice and leaves through the [continue] of line 94: it makes
    no call of [task_delay_until] and [time] stays where it was.  Over
    that iteration and the next one the service step has run twice and
    the daemon has slept once, two milliseconds in all. *)
Theorem continue_skips_the_sleep :
  let s1 := steady_iteration 0 1 2 3 3 in_disabled in
  let s2 := run 0 1 2 [(3, 3); (3, 3)] in_disabled in
  leaves_by_continue 0 3 3 in_disabled = true /\
  new_calls in_disabled s1 =
    background_calls ++
    [call_competition_get_status 3; call_competition_get_status 3] /\
  service_steps (new_calls in_disabled s1) = 1%nat /\
  deadline_sleeps (new_calls in_disabled s1) = 0%nat /\
  time s1 = time in_disabled /\
  service_steps (new_calls in_disabled s2) = 2%nat /\
  deadline_sleeps (new_calls in_disabled s2) = 1%nat /\
  time s2 = time in_disabled + 2.
Proof. cbv zeta. repeat split; reflexivity. Qed.

(** The kernel image at [0x03800000]. *)
Definition sample_static_address (F : Hot.user_function) : Z :=
  match F with
  | Hot.autonomous => 0x03800100
  | Hot.initialize => 0x03800140
  | Hot.opcontrol => 0x03800180
  | Hot.disabled => 0x038001C0
  | Hot.competition_initialize => 0x03800200
  | Hot.cpp_initialize => 0x03800240
  end.

(** The table after a compatible reload of the sample hot image. *)
Definition reloaded_table : Hot.hot_table :=
  Hot.HOT_TABLE
    (Hot.invoke_install_hot_table Hot.list_h_all 0x07900000 0x07900020
       Hot.sample_hot_address 0x07A00000 0x07A00000 0x07A00000 0x07A00010
       (fun m => m) 0x07800000 0x03800000 Hot.sample_state).

(** C5 (the code departs from it).  After a compatible reload every slot
    of the table is non-null.  The initialisation task calls the slot's
    override; the tasks of the other four callbacks call the statically
    linked symbols of the kernel image, where the rule names the
    overrides. *)
Theorem only_initialize_follows_the_table :
  (forall F, Hot.functions reloaded_table F = Hot.sample_hot_address F) /\
  (forall F, spec_resolution sample_static_address reloaded_table F =
             Hot.sample_hot_address F) /\
  daemon_invokes sample_static_address reloaded_table Hot.initialize = Some 0x07800140 /\
  daemon_invokes sample_static_address reloaded_table Hot.autonomous = Some 0x03800100 /\
  daemon_invokes sample_static_address reloaded_table Hot.opcontrol = Some 0x03800180 /\
  daemon_invokes sample_static_address reloaded_table Hot.disabled = Some 0x038001C0 /\
  daemon_invokes sample_static_address reloaded_table Hot.competition_initialize =
    Some 0x03800200.
Proof.
  split; [intros F; destruct F; reflexivity|].
  split; [intros F; destruct F; reflexivity|].
  repeat split; reflexivity.
Qed.

(* --------------------------------------------------------------------- *)
(** ** Further behaviour of the daemon                                    *)
(* --------------------------------------------------------------------- *)

(** [system_daemon_initialize]: the daemon's own task, in its own storage.
    The priority [TASK_PRIORITY_MAX - 2] is not recorded. *)
Definition system_daemon_initialize (sched : list tcb) : list tcb * task_t :=
  task_create_static sched _system_daemon_task "PROS System Daemon"
    system_daemon_task_buffer.

(** Lines 60-83 in full: the prologue, [waits] passes through the bootstrap
    loop, and the notification. *)
Definition daemon_boot (t0 t1 : Z) (waits : nat) (sched : list tcb) : state :=
  bootstrap_exit
    (Nat.iter waits bootstrap_iteration (daemon_prologue t0 t1 (entry_state sched))).

(** The state a status selects when nothing is known of the one before:
    the old status of the first iteration, [1 << 8], has none of the
    flags. *)
Definition startup_state (disabled_bit autonomous_bit connected_bit status : Z) : state_task :=
  if Z.testbit status connected_bit && Z.testbit status disabled_bit then E_COMP_INIT_TASK
  else if Z.testbit status disabled_bit then E_DISABLED_TASK
  else if Z.testbit status autonomous_bit then E_AUTON_TASK
  else E_OPCONTROL_TASK.

(** How many iterations of a run leave through the [continue] of line 94. *)
Fixpoint continues (disabled_bit autonomous_bit connected_bit : Z)
    (polls : list (Z * Z)) (s : state) : nat :=
  match polls with
  | [] => 0%nat
  | (guard, fresh) :: rest =>
      ((if leaves_by_continue disabled_bit guard fresh s then 1 else 0) +
       continues disabled_bit autonomous_bit connected_bit rest
         (steady_iteration disabled_bit autonomous_bit connected_bit guard fresh s))%nat
  end.

(** The discipline of the log: whether the port mutexes are taken and
    whether the scheduler is suspended, and which calls are allowed when.
    The vendor's background service needs both; the serial flush and the
    device layer's background processing need the mutexes and a running
    scheduler; the mutexes are given back with the scheduler running; a
    plain delay needs a running scheduler; every other call (the clock,
    the waits, the status, the tasks) is made with the mutexes free and
    the scheduler running. *)
Definition bracket_step (g : bool * bool) (c : call) : option (bool * bool) :=
  let '(taken, suspended) := g in
  match c with
  | call_port_mutex_take_all =>
      if taken || suspended then None else Some (true, false)
  | call_port_mutex_give_all =>
      if taken && negb suspended then Some (false, false) else None
  | call_rtos_suspend_all =>
      if suspended then None else Some (taken, true)
  | call_rtos_resume_all =>
      if suspended then Some (taken, false) else None
  | call_vexBackgroundProcessing =>
      if taken && suspended then Some g else None
  | call_ser_output_flush | call_vdml_background_processing =>
      if taken && negb suspended then Some g else None
  | call_task_delay _ =>
      if suspended then None else Some g
  | call_millis _ | call_task_delay_until _ _ | call_task_notify_take _ _ _
  | call_competition_get_status _ | call_task_get_state _ _ | call_task_delete _
  | call_task_create_static _ _ _ _ =>
      if taken || suspended then None else Some g
  end.

Fixpoint brackets (g : bool * bool) (l : list call) : option (bool * bool) :=
  match l with
  | [] => Some g
  | c :: rest =>
      match bracket_step g c with
      | Some g' => brackets g' rest
      | None => None
      end
  end.

Definition is_timed_out_wait (c : call) : bool :=
  match c with call_task_notify_take _ _ false => true | _ => false end.

Section Behaviour.

Variables disabled_bit autonomous_bit connected_bit : Z.

Local Abbreviation iteration := (steady_iteration disabled_bit autonomous_bit connected_bit).
Local Abbreviation chosen := (select_state disabled_bit autonomous_bit connected_bit).
Local Abbreviation held := (held_disabled disabled_bit).
Local Abbreviation fires := (transition_fires disabled_bit).
Local Abbreviation daemon_run := (run disabled_bit autonomous_bit connected_bit).

Lemma iteration_trichotomy (s : state) (guard fresh : Z) :
  guard = status s \/
  (guard <> status s /\ held (status s) fresh = true) \/
  fires guard fresh s = true.
Proof.
  destruct (Z.eq_dec guard (status s)) as [Heq|Hne]; [now left|right].
  destruct (held (status s) fresh) eqn:Hheld; [left; now split|right].
  unfold transition_fires. rewrite Hheld.
  apply andb_true_iff. split; [|reflexivity].
  apply negb_true_iff, Z.eqb_neq. congruence.
Qed.

Lemma fires_inv (s : state) (guard fresh : Z) :
  fires guard fresh s = true -> guard <> status s /\ held (status s) fresh = false.
Proof.
  unfold transition_fires. intros H. apply andb_true_iff in H as [H1 H2].
  apply negb_true_iff in H1, H2. apply Z.eqb_neq in H1. split; congruence.
Qed.

Lemma task_delete_other (sched : list tcb) (task : task_t) (h : nat) :
  task <> Some h -> task_delete sched task !! h = sched !! h.
Proof.
  intros Hne. unfold task_delete. destruct task as [h0|]; [|reflexivity].
  destruct (sched !! h0); [|reflexivity].
  apply list_lookup_insert_ne. congruence.
Qed.

(** X2.  An iteration changes no task but the one in the slot: the entry
    of every other task the scheduler knows is as before, and at most one
    task is added. *)
Theorem iteration_touches_only_the_slot (s : state) (guard fresh : Z) (h : nat) :
  (h < length (tasks s))%nat ->
  competition_task s <> Some h ->
  tasks (iteration guard fresh s) !! h = tasks s !! h /\
  (length (tasks s) <= length (tasks (iteration guard fresh s)) <= S (length (tasks s)))%nat.
Proof.
  intros Hlt Hne.
  destruct (iteration_trichotomy s guard fresh) as [Heq|[[Hg Hheld]|Hf]].
  - rewrite (iteration_unchanged _ _ _ s guard fresh Heq). cbn [tasks]. split; [reflexivity|lia].
  - rewrite (iteration_held _ _ _ s guard fresh Hg Hheld). cbn [tasks]. split; [reflexivity|lia].
  - rewrite (iteration_fires _ _ _ s guard fresh Hf). cbn [tasks].
    assert (Hlen : length (if deletable (task_get_state (tasks s) (competition_task s))
                           then task_delete (tasks s) (competition_task s)
                           else tasks s) = length (tasks s))
      by (destruct (deletable _); [apply length_task_delete|reflexivity]).
    split.
    + rewrite lookup_app_l by lia.
      destruct (deletable _); [now apply task_delete_other|reflexivity].
    + rewrite length_app, Hlen. simpl. lia.
Qed.

Lemma created_in_iteration (s : state) (guard fresh : Z)
    (fn : task_fn_t) (name : string) (buf : storage) (h : task_t) :
  In (call_task_create_static fn name buf h) (new_calls s (iteration guard fresh s)) ->
  fires guard fresh s = true /\
  fn = task_fns (chosen (status s) fresh) /\
  name = task_names (chosen (status s) fresh) /\
  buf = competition_task_buffer /\
  h = Some (length (tasks s)).
Proof.
  intros Hin.
  destruct (iteration_trichotomy s guard fresh) as [Heq|[[Hg Hheld]|Hf]].
  - rewrite (iteration_unchanged _ _ _ s guard fresh Heq) in Hin.
    erewrite new_calls_app in Hin by reflexivity.
    unfold background_calls in Hin. simpl in Hin.
    repeat (destruct Hin as [Hin|Hin]; try discriminate). destruct Hin.
  - rewrite (iteration_held _ _ _ s guard fresh Hg Hheld) in Hin.
    erewrite new_calls_app in Hin by reflexivity.
    unfold background_calls in Hin. simpl in Hin.
    repeat (destruct Hin as [Hin|Hin]; try discriminate). destruct Hin.
  - split; [exact Hf|].
    rewrite (iteration_fires _ _ _ s guard fresh Hf) in Hin.
    erewrite new_calls_app in Hin by reflexivity.
    unfold background_calls in Hin.
    destruct (deletable _); simpl in Hin;
      repeat (destruct Hin as [Hin|Hin]; [try discriminate Hin|]);
      try contradiction;
      injection Hin as <- <- <- <-; now repeat split.
Qed.

(** X3.  Whatever task an iteration creates, it creates in the slot's
    storage, and its entry point follows the disabled flag of the new
    status: with the flag set it is the disabled or the competition
    initialisation task, never operator control or autonomous; with the
    flag clear it is the autonomous task if the autonomous flag is set and
    operator control otherwise. *)
Theorem created_task_follows_the_disabled_flag (s : state) (guard fresh : Z)
    (fn : task_fn_t) (name : string) (buf : storage) (h : task_t) :
  0 <= disabled_bit -> 0 <= autonomous_bit -> 0 <= connected_bit ->
  In (call_task_create_static fn name buf h) (new_calls s (iteration guard fresh s)) ->
  buf = competition_task_buffer /\
  (if Z.testbit fresh disabled_bit
   then fn = _disabled_task \/ fn = _competition_initialize_task
   else if Z.testbit fresh autonomous_bit
        then fn = _autonomous_task
        else fn = _opcontrol_task).
Proof.
  intros Hd Ha Hc Hin.
  destruct (created_in_iteration s guard fresh fn name buf h Hin)
    as (_ & -> & _ & -> & _).
  split; [reflexivity|].
  rewrite select_state_spec by assumption. unfold spec_next_state.
  destruct (Z.testbit fresh disabled_bit); destruct (Z.testbit fresh autonomous_bit);
    destruct (xorb _ _); destruct (Z.testbit fresh connected_bit); simpl; tauto.
Qed.

(** X4.  An iteration starts the competition initialisation task exactly
    when the status changed, the robot was neither disabled nor connected
    before, and is both disabled and connected now. *)
Theorem comp_init_only_on_entering_disabled_connected (s : state) (guard fresh : Z) :
  0 <= disabled_bit -> 0 <= autonomous_bit -> 0 <= connected_bit ->
  (exists name buf h,
     In (call_task_create_static _competition_initialize_task name buf h)
        (new_calls s (iteration guard fresh s))) <->
  (guard <> status s /\
   Z.testbit (status s) disabled_bit = false /\
   Z.testbit (status s) connected_bit = false /\
   Z.testbit fresh disabled_bit = true /\
   Z.testbit fresh connected_bit = true).
Proof.
  intros Hd Ha Hc. split.
  - intros (name & buf & h & Hin).
    destruct (created_in_iteration s guard fresh _ name buf h Hin) as (Hf & Hfn & _).
    destruct (fires_inv s guard fresh Hf) as [Hg Hheld].
    rewrite held_disabled_spec in Hheld by assumption.
    rewrite select_state_spec in Hfn by assumption. unfold spec_next_state in Hfn.
    destruct (Z.testbit fresh disabled_bit); destruct (Z.testbit fresh connected_bit);
      destruct (Z.testbit (status s) disabled_bit);
      destruct (Z.testbit (status s) connected_bit);
      destruct (Z.testbit fresh autonomous_bit);
      simpl in *; try discriminate; now repeat split.
  - intros (Hg & Hod & Hoc & Hnd & Hnc).
    assert (Hf : fires guard fresh s = true).
    { unfold transition_fires. rewrite held_disabled_spec, Hod, Hnd by assumption.
      apply andb_true_iff. split; [|reflexivity].
      apply negb_true_iff, Z.eqb_neq. congruence. }
    assert (Hst : chosen (status s) fresh = E_COMP_INIT_TASK).
    { rewrite select_state_spec by assumption. unfold spec_next_state.
      now rewrite Hoc, Hnd, Hnc. }
    exists (task_names E_COMP_INIT_TASK), competition_task_buffer, (Some (length (tasks s))).
    erewrite new_calls_app
      by (rewrite (iteration_fires _ _ _ s guard fresh Hf); reflexivity).
    rewrite Hst. apply in_or_app. right.
    destruct (deletable _); simpl; tauto.
Qed.

(** *** A status that stays *)

Lemma stable_run (s : state) (v : Z) (n : nat) :
  status s = v ->
  let sn := daemon_run (repeat (v, v) n) s in
  status sn = v /\
  tasks sn = tasks s /\
  competition_task sn = competition_task s /\
  exists l, log sn = log s ++ l /\ Forall (fun c => is_slot_change c = false) l.
Proof.
  revert s. induction n as [|n IH]; intros s Hv; cbv zeta; simpl.
  - repeat split; try assumption. exists []. split; [now rewrite app_nil_r|constructor].
  - rewrite (iteration_unchanged _ _ _ s v v (eq_sym Hv)).
    match goal with |- context [daemon_run _ ?s1] => specialize (IH s1 Hv) end.
    cbv zeta in IH. cbn [status tasks competition_task log] in IH.
    destruct IH as (H1 & H2 & H3 & l & Hl & Hall).
    repeat split; try assumption.
    eexists. split; [rewrite Hl, <- app_assoc; reflexivity|].
    apply Forall_app. split; [|exact Hall].
    unfold background_calls. repeat constructor.
Qed.

(** X5.  A change of status is acted on once.  After the iteration that
    polls the value [v], the daemon's [status] is [v], and however many
    iterations follow in which the status is still [v], the slot and the
    scheduler stay as that iteration left them: no task is deleted or
    created. *)
Theorem status_change_is_acted_on_once (s : state) (v : Z) (n : nat) :
  let s1 := iteration v v s in
  let sn := daemon_run (repeat (v, v) n) s1 in
  status s1 = v /\
  status sn = v /\
  tasks sn = tasks s1 /\
  competition_task sn = competition_task s1 /\
  Forall (fun c => is_slot_change c = false) (new_calls s1 sn).
Proof.
  cbv zeta.
  assert (Hv : status (iteration v v s) = v).
  { destruct (iteration_trichotomy s v v) as [Heq|[[Hg Hheld]|Hf]].
    - rewrite (iteration_unchanged _ _ _ s v v Heq). now cbn [status].
    - now rewrite (iteration_held _ _ _ s v v Hg Hheld).
    - now rewrite (iteration_fires _ _ _ s v v Hf). }
  destruct (stable_run (iteration v v s) v n Hv) as (H1 & H2 & H3 & l & Hl & Hall).
  repeat split; try assumption.
  now rewrite (new_calls_app _ _ l Hl).
Qed.

(** *** Accounting over a run *)

Lemma iteration_time (s : state) (guard fresh : Z) :
  time (iteration guard fresh s) =
  if leaves_by_continue disabled_bit guard fresh s
  then time s
  else (time s + 2) mod word_modulus.
Proof.
  unfold leaves_by_continue.
  destruct (iteration_trichotomy s guard fresh) as [Heq|[[Hg Hheld]|Hf]].
  - rewrite (iteration_unchanged _ _ _ s guard fresh Heq). subst guard.
    now rewrite Z.eqb_refl.
  - rewrite (iteration_held _ _ _ s guard fresh Hg Hheld), Hheld.
    assert (Hn : (status s =? guard) = false) by (apply Z.eqb_neq; congruence).
    now rewrite Hn.
  - destruct (fires_inv s guard fresh Hf) as [Hg Hheld].
    rewrite (iteration_fires _ _ _ s guard fresh Hf), Hheld.
    now rewrite andb_false_r.
Qed.

(** X6.  Over any run of the steady loop the service step has run once
    per iteration; the daemon has slept once per iteration except those
    that left through the [continue] of line 94; and [time] has advanced,
    modulo the width of the clock, by two milliseconds per sleep. *)
Theorem run_accounting (polls : list (Z * Z)) (s : state) :
  let s' := daemon_run polls s in
  let skipped := continues disabled_bit autonomous_bit connected_bit polls s in
  service_steps (log s') = (service_steps (log s) + length polls)%nat /\
  (deadline_sleeps (log s') + skipped = deadline_sleeps (log s) + length polls)%nat /\
  (time s' + 2 * Z.of_nat skipped) mod word_modulus =
  (time s + 2 * Z.of_nat (length polls)) mod word_modulus.
Proof.
  cbv zeta. revert s.
  induction polls as [|[guard fresh] rest IH]; intros s.
  - simpl. repeat split; try lia; f_equal; lia.
  - cbn [run continues length].
    destruct (IH (iteration guard fresh s)) as (Hs & Hd & Ht).
    rewrite Hs, iteration_service_steps. split; [lia|].
    rewrite iteration_deadline_sleeps in Hd.
    rewrite iteration_time in Ht.
    destruct (leaves_by_continue disabled_bit guard fresh s); split; try lia.
    + replace (time (daemon_run rest (iteration guard fresh s)) +
               2 * Z.of_nat (1 + continues disabled_bit autonomous_bit connected_bit rest
                                   (iteration guard fresh s)))
        with (time (daemon_run rest (iteration guard fresh s)) +
              2 * Z.of_nat (continues disabled_bit autonomous_bit connected_bit rest
                              (iteration guard fresh s)) + 2) by lia.
      rewrite Z.add_mod, Ht, <- Z.add_mod by (unfold word_modulus; lia).
      f_equal. lia.
    + rewrite Nat.add_0_l, Ht, Z.add_mod_idemp_l by (unfold word_modulus; lia).
      f_equal. lia.
Qed.

(** *** Mutexes and scheduler suspension *)

Lemma brackets_app (g : bool * bool) (l k : list call) :
  brackets g (l ++ k) =
  match brackets g l with
  | Some g' => brackets g' k
  | None => None
  end.
Proof.
  revert g. induction l as [|c l IH]; intros g; simpl; [reflexivity|].
  destruct (bracket_step g c); [apply IH|reflexivity].
Qed.

Lemma bootstrap_iteration_eq (s : state) :
  bootstrap_iteration s =
  {| time := time s; status := status s; competition_task := competition_task s;
     tasks := tasks s;
     log := log s ++ call_task_notify_take true 2 false :: background_calls |}.
Proof.
  unfold bootstrap_iteration. rewrite do_background_operations_eq.
  unfold emit. cbn [time status competition_task tasks log].
  f_equal. now rewrite <- app_assoc.
Qed.

(** X7.  In every state the daemon reaches, its log keeps the discipline
    of [bracket_step] and ends with the port mutexes given back and the
    scheduler running.  So the vendor's background service only ever runs
    with the mutexes taken and the scheduler suspended, and the daemon
    never polls the status, waits, sleeps to a deadline, or deletes or
    creates a task while it holds the mutexes or has the scheduler
    suspended. *)
Theorem log_keeps_the_discipline (p : phase) (s : state) :
  reachable disabled_bit autonomous_bit connected_bit p s ->
  brackets (false, false) (log s) = Some (false, false).
Proof.
  induction 1 as [sched t0 t1 _|s _ IH|s _ IH|s guard fresh _ IH|p s s' _ IH Henv].
  - reflexivity.
  - rewrite bootstrap_iteration_eq. cbn [log]. rewrite brackets_app, IH. reflexivity.
  - unfold bootstrap_exit, emit. cbn [log]. rewrite brackets_app, IH. reflexivity.
  - destruct (iteration_trichotomy s guard fresh) as [Heq|[[Hg Hheld]|Hf]].
    + rewrite (iteration_unchanged _ _ _ s guard fresh Heq). cbn [log].
      rewrite brackets_app, IH. reflexivity.
    + rewrite (iteration_held _ _ _ s guard fresh Hg Hheld). cbn [log].
      rewrite brackets_app, IH. reflexivity.
    + rewrite (iteration_fires _ _ _ s guard fresh Hf). cbn [log].
      rewrite brackets_app, IH. destruct (deletable _); reflexivity.
  - destruct Henv as (_ & _ & _ & Hlog & _). now rewrite Hlog.
Qed.

(** *** The bootstrap loop *)

Lemma filter_app_cons_false {A : Type} (P : A -> bool) (l k : list A) :
  List.filter P k = [] -> List.filter P (l ++ k) = List.filter P l.
Proof. intros H. now rewrite List.filter_app, H, app_nil_r. Qed.

(** X8.  Until the notification arrives the daemon makes no transition:
    in every state of the bootstrap loop [status] still holds its initial
    [1 << 8], the only call that touched the slot is the creation of the
    initialisation task, whose handle the slot still holds, and the
    service step has run exactly once for each wait that timed out. *)
Theorem bootstrap_makes_no_transition (s : state) :
  reachable disabled_bit autonomous_bit connected_bit Bootstrap s ->
  status s = 256 /\
  (exists h,
     competition_task s = Some h /\
     List.filter is_slot_change (log s) =
       [call_task_create_static _initialize_task "User Initialization (PROS)"
          competition_task_buffer (Some h)]) /\
  service_steps (log s) = length (List.filter is_timed_out_wait (log s)).
Proof.
  intros Hr. remember Bootstrap as p eqn:Hp.
  induction Hr as [sched t0 t1 _|s _ IH|s _ IH|s guard fresh _ IH|p s s' _ IH Henv];
    try discriminate Hp.
  - split; [reflexivity|]. split; [|reflexivity].
    exists (length sched). split; reflexivity.
  - destruct (IH Hp) as (Hst & (h & Hh & Hf) & Hsv).
    rewrite bootstrap_iteration_eq. cbn [status competition_task log].
    split; [exact Hst|]. split.
    + exists h. split; [exact Hh|].
      rewrite filter_app_cons_false by reflexivity. exact Hf.
    + unfold service_steps in *.
      rewrite !List.filter_app, !length_app, Hsv. reflexivity.
  - destruct Henv as (_ & Hst' & Hc' & Hlog & _).
    destruct (IH Hp) as (Hst & (h & Hh & Hf) & Hsv).
    rewrite Hst', Hc', Hlog. split; [exact Hst|]. split; [|exact Hsv].
    exists h. now split.
Qed.

(** X9.  The initial status [1 << 8] forces a transition in the first
    iteration that polls anything else, provided neither the disabled nor
    the connected flag is bit 8: the task started is the one the polled
    status selects on its own, competition initialisation if the robot
    is connected and disabled, else disabled, else autonomous, else
    operator control. *)
Theorem first_poll_starts_a_mode_task (s : state) (guard fresh : Z) :
  0 <= disabled_bit -> 0 <= autonomous_bit -> 0 <= connected_bit ->
  disabled_bit <> 8 -> connected_bit <> 8 ->
  status s = 256 ->
  guard <> 256 ->
  let st := startup_state disabled_bit autonomous_bit connected_bit fresh in
  let s' := iteration guard fresh s in
  fires guard fresh s = true /\
  competition_task s' = Some (length (tasks s)) /\
  tasks s' !! length (tasks s) =
    Some {| t_fn := task_fns st; t_name := task_names st;
            t_storage := competition_task_buffer; t_state := E_TASK_STATE_READY |}.
Proof.
  intros Hd Ha Hc Hd8 Hc8 Hst Hg. cbv zeta.
  assert (Hbit : forall b, b <> 8 -> Z.testbit 256 b = false).
  { intros b Hb. change 256 with (2 ^ 8). apply Z.pow2_bits_false. congruence. }
  assert (Hf : fires guard fresh s = true).
  { unfold transition_fires.
    rewrite held_disabled_spec, Hst, (Hbit disabled_bit Hd8), andb_false_r by assumption.
    apply andb_true_iff. split; [|reflexivity].
    apply negb_true_iff, Z.eqb_neq. congruence. }
  assert (Hsel : chosen (status s) fresh =
                 startup_state disabled_bit autonomous_bit connected_bit fresh).
  { rewrite select_state_spec by assumption. unfold spec_next_state, startup_state.
    rewrite Hst, (Hbit connected_bit Hc8).
    destruct (Z.testbit fresh connected_bit); destruct (Z.testbit fresh disabled_bit);
      reflexivity. }
  split; [exact Hf|].
  rewrite (iteration_fires _ _ _ s guard fresh Hf). cbn [competition_task tasks].
  rewrite Hsel. split; [reflexivity|].
  apply list_lookup_middle.
  destruct (deletable _); [now rewrite length_task_delete|reflexivity].
Qed.

(** *** The slot after a transition *)

(** X16.  A transition made from a state the daemon reaches leaves
    exactly one live task in the storage of the mode slot: the task it
    has just created, which the handle names.  The slot is never left
    empty by a transition, whatever state the outgoing task was in. *)
Theorem transition_leaves_exactly_one (p : phase) (s : state) (guard fresh : Z) :
  reachable disabled_bit autonomous_bit connected_bit p s ->
  fires guard fresh s = true ->
  let s' := iteration guard fresh s in
  live_mode_tasks (tasks s') = 1%nat /\
  exists t,
    competition_task s' = Some (length (tasks s)) /\
    tasks s' !! length (tasks s) = Some t /\
    is_live_mode_task t = true /\
    t_fn t = task_fns (chosen (status s) fresh).
Proof.
  intros Hr Hf. cbv zeta.
  pose proof (reachable_slot_ok _ _ _ p s Hr) as Hok.
  rewrite (iteration_fires _ _ _ s guard fresh Hf). cbn [tasks competition_task].
  split.
  - unfold live_mode_tasks. rewrite List.filter_app, length_app.
    rewrite filter_none by (now apply retired_slot_empty). reflexivity.
  - eexists. split; [reflexivity|]. split.
    + apply list_lookup_middle.
      destruct (deletable _); [now rewrite length_task_delete|reflexivity].
    + split; reflexivity.
Qed.

End Behaviour.

(** *** Witnesses on the concrete controller *)

(** The daemon in its bootstrap loop, one wait having timed out. *)
Definition in_bootstrap : state :=
  bootstrap_iteration (daemon_prologue 5 7 (entry_state [daemon_tcb])).

Lemma in_bootstrap_reachable : reachable 0 1 2 Bootstrap in_bootstrap.
Proof. apply reach_bootstrap, reach_prologue. repeat constructor. Defined.

Lemma system_daemon_initialize_keeps_the_slot_free (sched : list tcb) :
  Forall (fun t => is_live_mode_task t = false) sched ->
  Forall (fun t => is_live_mode_task t = false) (fst (system_daemon_initialize sched)).
Proof.
  intros H. unfold system_daemon_initialize, task_create_static. cbn [fst].
  apply Forall_app. split; [exact H|]. repeat constructor.
Qed.

(** The daemon started by [system_daemon_initialize] on an empty
    scheduler, one wait having timed out before the notification. *)
Definition booted : state :=
  daemon_boot 5 7 1 (fst (system_daemon_initialize [])).

Lemma booted_reachable : reachable 0 1 2 Steady booted.
Proof.
  apply reach_notified, reach_bootstrap, reach_prologue.
  apply system_daemon_initialize_keeps_the_slot_free. constructor.
Defined.

Lemma transition_leaves_exactly_one_witness :
  live_mode_tasks (tasks (steady_iteration 0 1 2 1 1 booted)) = 1%nat /\
  exists t,
    competition_task (steady_iteration 0 1 2 1 1 booted) = Some (length (tasks booted)) /\
    tasks (steady_iteration 0 1 2 1 1 booted) !! length (tasks booted) = Some t /\
    is_live_mode_task t = true /\
    t_fn t = task_fns (select_state 0 1 2 (status booted) 1).
Proof.
  exact (transition_leaves_exactly_one 0 1 2 Steady booted 1 1 booted_reachable eq_refl).
Defined.

Lemma iteration_touches_only_the_slot_witness :
  tasks (steady_iteration 0 1 2 2 2 in_opcontrol) !! 0%nat = tasks in_opcontrol !! 0%nat /\
  (length (tasks in_opcontrol) <= length (tasks (steady_iteration 0 1 2 2 2 in_opcontrol))
   <= S (length (tasks in_opcontrol)))%nat.
Proof.
  apply (iteration_touches_only_the_slot 0 1 2 in_opcontrol 2 2 0%nat).
  - simpl. lia.
  - discriminate.
Defined.

Lemma created_in_opcontrol_example :
  In (call_task_create_static _autonomous_task "User Autonomous (PROS)"
        competition_task_buffer (Some 2%nat))
     (new_calls in_opcontrol (steady_iteration 0 1 2 2 2 in_opcontrol)).
Proof. vm_compute. do 11 right. now left. Defined.

Lemma created_task_follows_the_disabled_flag_witness :
  competition_task_buffer = competition_task_buffer /\
  (if Z.testbit 2 0
   then _autonomous_task = _disabled_task \/ _autonomous_task = _competition_initialize_task
   else if Z.testbit 2 1
        then _autonomous_task = _autonomous_task
        else _autonomous_task = _opcontrol_task).
Proof.
  apply (created_task_follows_the_disabled_flag 0 1 2 in_opcontrol 2 2
           _autonomous_task "User Autonomous (PROS)" competition_task_buffer (Some 2%nat));
    try lia.
  exact created_in_opcontrol_example.
Defined.

Lemma comp_init_only_on_entering_disabled_connected_witness :
  (exists name buf h,
     In (call_task_create_static _competition_initialize_task name buf h)
        (new_calls in_opcontrol (steady_iteration 0 1 2 5 5 in_opcontrol))) <->
  (5 <> status in_opcontrol /\
   Z.testbit (status in_opcontrol) 0 = false /\
   Z.testbit (status in_opcontrol) 2 = false /\
   Z.testbit 5 0 = true /\
   Z.testbit 5 2 = true).
Proof.
  apply (comp_init_only_on_entering_disabled_connected 0 1 2 in_opcontrol 5 5); lia.
Defined.

Lemma log_keeps_the_discipline_witness :
  brackets (false, false) (log after_first_iteration) = Some (false, false).
Proof.
  exact (log_keeps_the_discipline 0 1 2 Steady after_first_iteration
           after_first_iteration_reachable).
Defined.

Lemma bootstrap_makes_no_transition_witness :
  status in_bootstrap = 256 /\
  (exists h,
     competition_task in_bootstrap = Some h /\
     List.filter is_slot_change (log in_bootstrap) =
       [call_task_create_static _initialize_task "User Initialization (PROS)"
          competition_task_buffer (Some h)]) /\
  service_steps (log in_bootstrap) =
    length (List.filter is_timed_out_wait (log in_bootstrap)).
Proof.
  exact (bootstrap_makes_no_transition 0 1 2 in_bootstrap in_bootstrap_reachable).
Defined.

Lemma first_poll_starts_a_mode_task_witness :
  transition_fires 0 5 5 (daemon_boot 5 7 1 [daemon_tcb]) = true /\
  competition_task (steady_iteration 0 1 2 5 5 (daemon_boot 5 7 1 [daemon_tcb])) =
    Some (length (tasks (daemon_boot 5 7 1 [daemon_tcb]))) /\
  tasks (steady_iteration 0 1 2 5 5 (daemon_boot 5 7 1 [daemon_tcb]))
    !! length (tasks (daemon_boot 5 7 1 [daemon_tcb])) =
    Some {| t_fn := task_fns (startup_state 0 1 2 5);
            t_name := task_names (startup_state 0 1 2 5);
            t_storage := competition_task_buffer; t_state := E_TASK_STATE_READY |}.
Proof.
  apply (first_poll_starts_a_mode_task 0 1 2 (daemon_boot 5 7 1 [daemon_tcb]) 5 5);
    try lia; reflexivity.
Defined.

Example boot_connected_and_disabled_runs_comp_init :
  t_fn <$> (tasks (steady_iteration 0 1 2 5 5 (daemon_boot 5 7 1 [daemon_tcb])) !! 2%nat) =
  Some _competition_initialize_task.
Proof. reflexivity. Qed.

(** *** The reload table and the entry points together *)

Section Reload.

Variable list_h : list Hot.user_function.
Variables _PROS_COMPILE_TIMESTAMP _PROS_COMPILE_DIRECTORY : Z.
Variable hot_address : Hot.user_function -> Z.
Variables __sbss_start __sbss_end __bss_start __bss_end : Z.
Variable __libc_init_array : Hot.memory -> Hot.memory.
Variables install_hot_table_addr HOT_TABLE_addr : Z.
Variable static_address : Hot.user_function -> Z.

Local Abbreviation attempt :=
  (Hot.invoke_install_hot_table list_h _PROS_COMPILE_TIMESTAMP _PROS_COMPILE_DIRECTORY
     hot_address __sbss_start __sbss_end __bss_start __bss_end __libc_init_array
     install_hot_table_addr HOT_TABLE_addr).

Lemma attempt_mismatch (s : Hot.state) :
  Hot.MAGIC_ADDR s <> (Hot.MAGIC0, Hot.MAGIC1) ->
  Hot.HOT_TABLE (attempt s) = Hot.zero_table.
Proof.
  intros Hne. unfold Hot.invoke_install_hot_table.
  destruct (Hot.MAGIC_ADDR s) as [m0 m1] eqn:Hm.
  change (Hot.MAGIC_ADDR (Hot.printf s ?p)) with (Hot.MAGIC_ADDR s). rewrite Hm.
  cbn [fst snd].
  destruct (m0 =? Hot.MAGIC0) eqn:E0; destruct (m1 =? Hot.MAGIC1) eqn:E1;
    cbn [andb]; try reflexivity.
  apply Z.eqb_eq in E0, E1. subst. congruence.
Qed.

Lemma attempt_match (s : Hot.state) :
  Hot.MAGIC_ADDR s = (Hot.MAGIC0, Hot.MAGIC1) ->
  (forall F, In F list_h) ->
  forall F, Hot.functions (Hot.HOT_TABLE (attempt s)) F = hot_address F.
Proof.
  intros Hm Hall F. unfold Hot.invoke_install_hot_table.
  change (Hot.MAGIC_ADDR (Hot.printf s ?p)) with (Hot.MAGIC_ADDR s). rewrite Hm.
  cbn [fst snd]. rewrite !Z.eqb_refl. cbn [andb].
  rewrite Hot.install_hot_table_table.
  now apply Hot.capture_installed.
Qed.

(** X10.  With no compatible hot image (either sentinel word differs) the
    pointers set up from the table after the install attempt are the
    statically linked ones, and every callback task of the daemon runs the
    statically linked implementation. *)
Theorem absent_hot_image_falls_back (s : Hot.state) :
  Hot.MAGIC_ADDR s <> (Hot.MAGIC0, Hot.MAGIC1) ->
  let tbl := Hot.HOT_TABLE (attempt s) in
  user_initialize (setup_user_functions static_address tbl) =
    static_address Hot.initialize /\
  user_cpp_initialize (setup_user_functions static_address tbl) =
    static_address Hot.cpp_initialize /\
  forall F fn, task_of_callback F = Some fn ->
               daemon_invokes static_address tbl F = Some (static_address F).
Proof.
  intros Hne. cbv zeta. rewrite (attempt_mismatch s Hne).
  split; [reflexivity|]. split; [reflexivity|].
  intros F fn HF. destruct F; try discriminate HF; reflexivity.
Qed.

(** X11.  After a compatible reload the initialisation task runs the hot
    image's [initialize], and [user_cpp_initialize], the pointer through
    which the default [initialize] of line 151 calls, is the hot image's
    [cpp_initialize]; each unless the hot image links it at the null
    address, in which case the statically linked one is used. *)
Theorem compatible_reload_overrides_initialize (s : Hot.state) :
  Hot.MAGIC_ADDR s = (Hot.MAGIC0, Hot.MAGIC1) ->
  (forall F, In F list_h) ->
  let tbl := Hot.HOT_TABLE (attempt s) in
  daemon_invokes static_address tbl Hot.initialize =
    Some (if hot_address Hot.initialize =? 0
          then static_address Hot.initialize
          else hot_address Hot.initialize) /\
  user_cpp_initialize (setup_user_functions static_address tbl) =
    (if hot_address Hot.cpp_initialize =? 0
     then static_address Hot.cpp_initialize
     else hot_address Hot.cpp_initialize).
Proof.
  intros Hm Hall. cbv zeta.
  unfold daemon_invokes, setup_user_functions.
  cbn [task_of_callback task_callee user_initialize user_cpp_initialize callee_address].
  rewrite !(attempt_match s Hm Hall).
  split.
  - now destruct (hot_address Hot.initialize =? 0).
  - now destruct (hot_address Hot.cpp_initialize =? 0).
Qed.

(** X12.  If every callback's symbol is linked at a non-null address, the
    daemon never calls through a null pointer, whatever the table holds:
    both pointers set up at startup are non-null and so is the address
    every callback task runs. *)
Theorem no_null_callback (tbl : Hot.hot_table) :
  (forall F, static_address F <> 0) ->
  user_initialize (setup_user_functions static_address tbl) <> 0 /\
  user_cpp_initialize (setup_user_functions static_address tbl) <> 0 /\
  forall F a, daemon_invokes static_address tbl F = Some a -> a <> 0.
Proof.
  intros Hst.
  assert (H1 : user_initialize (setup_user_functions static_address tbl) <> 0).
  { cbn [setup_user_functions user_initialize].
    destruct (Hot.functions tbl Hot.initialize =? 0) eqn:E; cbn [negb].
    - apply Hst.
    - now apply Z.eqb_neq. }
  assert (H2 : user_cpp_initialize (setup_user_functions static_address tbl) <> 0).
  { cbn [setup_user_functions user_cpp_initialize].
    destruct (Hot.functions tbl Hot.cpp_initialize =? 0) eqn:E; cbn [negb].
    - apply Hst.
    - now apply Z.eqb_neq. }
  split; [exact H1|]. split; [exact H2|].
  intros F a HF. unfold daemon_invokes in HF.
  destruct F; cbn [task_of_callback task_callee callee_address] in HF;
    try discriminate HF; injection HF as <-; solve [apply Hst | exact H1].
Qed.

End Reload.

(** A cold boot with no hot image: the sentinel words are not the magic
    constants. *)
Definition cold_state : Hot.state :=
  {| Hot.HOT_TABLE := Hot.zero_table;
     Hot.MAGIC_ADDR := (0, 0);
     Hot.mem := fun _ => 0;
     Hot.stdout := [] |}.

Lemma sample_static_address_nonnull (F : Hot.user_function) : sample_static_address F <> 0.
Proof. destruct F; discriminate. Qed.

Lemma absent_hot_image_falls_back_witness :
  daemon_invokes sample_static_address
    (Hot.HOT_TABLE
       (Hot.invoke_install_hot_table Hot.list_h_all 0x07900000 0x07900020
          Hot.sample_hot_address 0x07A00000 0x07A00000 0x07A00000 0x07A00010
          (fun m => m) 0x07800000 0x03800000 cold_state))
    Hot.autonomous = Some (sample_static_address Hot.autonomous).
Proof.
  refine (proj2 (proj2
    (absent_hot_image_falls_back Hot.list_h_all 0x07900000 0x07900020
       Hot.sample_hot_address 0x07A00000 0x07A00000 0x07A00000 0x07A00010
       (fun m => m) 0x07800000 0x03800000 sample_static_address cold_state _))
    Hot.autonomous _autonomous_task eq_refl).
  discriminate.
Defined.

Lemma compatible_reload_overrides_initialize_witness :
  daemon_invokes sample_static_address reloaded_table Hot.initialize =
    Some (if Hot.sample_hot_address Hot.initialize =? 0
          then sample_static_address Hot.initialize
          else Hot.sample_hot_address Hot.initialize) /\
  user_cpp_initialize (setup_user_functions sample_static_address reloaded_table) =
    (if Hot.sample_hot_address Hot.cpp_initialize =? 0
     then sample_static_address Hot.cpp_initialize
     else Hot.sample_hot_address Hot.cpp_initialize).
Proof.
  exact (compatible_reload_overrides_initialize Hot.list_h_all 0x07900000 0x07900020
           Hot.sample_hot_address 0x07A00000 0x07A00000 0x07A00000 0x07A00010
           (fun m => m) 0x07800000 0x03800000 sample_static_address Hot.sample_state
           eq_refl Hot.list_h_all_complete).
Defined.

Lemma no_null_callback_witness :
  user_initialize (setup_user_functions sample_static_address reloaded_table) <> 0 /\
  user_cpp_initialize (setup_user_functions sample_static_address reloaded_table) <> 0 /\
  forall F a, daemon_invokes sample_static_address reloaded_table F = Some a -> a <> 0.
Proof.
  exact (no_null_callback sample_static_address reloaded_table
           sample_static_address_nonnull).
Defined.

End Daemon.

(* ===================================================================== *)
(** * devices/vdml_imu.c                                                  *)
(* ===================================================================== *)

Module Imu.

(** The calls that leave the file: the release of a port's mutex and the
    vendor's entry points, each with the device handle it is given. *)
Inductive call : Type :=
  | call_port_mutex_give (port : Z)
  | call_vexDeviceImuStatusGet (device_info : Z)
  | call_vexDeviceImuReset (device_info : Z)
  | call_vexDeviceImuHeadingGet (device_info : Z)
  | call_vexDeviceImuDegreesGet (device_info : Z)
  | call_vexDeviceImuQuaternionGet (device_info : Z)
  | call_vexDeviceImuAttitudeGet (device_info : Z)
  | call_vexDeviceImuRawGyroGet (device_info : Z)
  | call_vexDeviceImuRawAccelGet (device_info : Z).

(** [errno] and the log of calls. *)
Record vdml : Type := {
  errno : Z;
  calls : list call
}.

(** The one field of [v5_smart_device_s_t] that the file reads. *)
Record v5_smart_device_s_t : Type := {
  device_info : Z
}.

(** [quaternion_s_t], [attitude_s_t] and [imu_s_t], with the fields that
    the designated initialisers of lines 46-77 name. *)
Record quaternion_s_t (double : Type) : Type := {
  q_a : double; q_b : double; q_c : double; q_d : double
}.

Record attitude_s_t (double : Type) : Type := {
  pitch : double; roll : double; yaw : double
}.

Record imu_s_t (double : Type) : Type := {
  raw_x : double; raw_y : double; raw_z : double; raw_w : double
}.

Arguments Build_quaternion_s_t {double}.
Arguments Build_attitude_s_t {double}.
Arguments Build_imu_s_t {double}.

(** What the headers and the translation units that are not among the
    sources provide: the constants of [pros/error.h], [errno.h],
    [pros/imu.h] and [vdml/registry.h], the port claim of [vdml/vdml.h],
    the device registry, and the vendor's entry points.  A value of
    [double] is only passed along, never computed with.  What a vendor
    entry point returns may depend on the moment of the call, so it is
    given the state at the call. *)
Class Platform : Type := {
  double : Type;
  PROS_ERR : Z;
  PROS_ERR_F : double;
  EAGAIN : Z;
  E_IMU_STATUS_CALIBRATING : Z;
  E_IMU_STATUS_ERROR : Z;
  E_DEVICE_IMU : Z;
  claim_port_try : vdml -> Z -> Z -> bool * vdml;
  registry_get_device : Z -> v5_smart_device_s_t;
  vexDeviceImuStatusGet : vdml -> Z -> Z;
  vexDeviceImuHeadingGet : vdml -> Z -> double;
  vexDeviceImuDegreesGet : vdml -> Z -> double;
  vexDeviceImuQuaternionGet : vdml -> Z -> quaternion_s_t double;
  vexDeviceImuAttitudeGet : vdml -> Z -> attitude_s_t double;
  vexDeviceImuRawGyroGet : vdml -> Z -> imu_s_t double;
  vexDeviceImuRawAccelGet : vdml -> Z -> imu_s_t double
}.

(** ** State passing *)

Definition M (A : Type) : Type := vdml -> A * vdml.

Definition ret {A : Type} (a : A) : M A := fun s => (a, s).

Definition bind {A B : Type} (c : M A) (k : A -> M B) : M B :=
  fun s => let '(a, s1) := c s in k a s1.

Notation "x <- c ;; k" := (bind c (fun x => k))
  (at level 100, c at next level, right associativity).
Notation "c ;;; k" := (bind c (fun _ => k))
  (at level 100, right associativity).

(** [errno = e] *)
Definition set_errno (e : Z) : M unit :=
  fun s => (tt, {| errno := e; calls := calls s |}).

(** A call that leaves the file and returns what [result] says. *)
Definition extern {A : Type} (c : call) (result : vdml -> A) : M A :=
  fun s => (result s, {| errno := errno s; calls := calls s ++ [c] |}).

(** [return_port(port, rtn)]: [port_mutex_give(port); return rtn;] *)
Definition return_port {A : Type} (port : Z) (rtn : A) : M A :=
  extern (call_port_mutex_give port) (fun _ => tt) ;;; ret rtn.

Section Accessors.

Context {P : Platform}.

(** The claim of a port at the head of an accessor, as lines 52-55 spell
    it out: [claim_port_try] decides, a refused claim returns the error
    value, a granted one goes on with the registry's device.  The macros
    [claim_port_i] and [claim_port_f] of lines 26, 33 and 40 are taken to
    be this sequence with [PROS_ERR] and [PROS_ERR_F]. *)
Definition claim_port {A : Type} (port : Z) (error_code : A)
    (body : v5_smart_device_s_t -> M A) : M A :=
  ok <- (fun s => claim_port_try s port E_DEVICE_IMU) ;;
  if ok : bool then body (registry_get_device port) else ret error_code.

(** C truth value of [status & E_IMU_STATUS_CALIBRATING]. *)
Definition calibrating (status : Z) : bool :=
  negb (Z.land status E_IMU_STATUS_CALIBRATING =? 0).

(** [ERROR_IMU_STILL_CALIBRATING(port, device, err_return)], followed by
    the rest of the function. *)
Definition ERROR_IMU_STILL_CALIBRATING {A : Type} (port : Z)
    (device : v5_smart_device_s_t) (err_return : A) (rest : M A) : M A :=
  status <- extern (call_vexDeviceImuStatusGet (device_info device))
              (fun s => vexDeviceImuStatusGet s (device_info device)) ;;
  if calibrating status
  then set_errno EAGAIN ;;; return_port (port - 1) err_return
  else rest.

Definition imu_reset (port : Z) : M Z :=
  claim_port (port - 1) PROS_ERR (fun device =>
    ERROR_IMU_STILL_CALIBRATING port device PROS_ERR
      (extern (call_vexDeviceImuReset (device_info device)) (fun _ => tt) ;;;
       return_port (port - 1) 1)).

Definition imu_get_heading (port : Z) : M double :=
  claim_port (port - 1) PROS_ERR_F (fun device =>
    ERROR_IMU_STILL_CALIBRATING port device PROS_ERR_F
      (rtn <- extern (call_vexDeviceImuHeadingGet (device_info device))
                (fun s => vexDeviceImuHeadingGet s (device_info device)) ;;
       return_port (port - 1) rtn)).

Definition imu_get_degrees (port : Z) : M double :=
  claim_port (port - 1) PROS_ERR_F (fun device =>
    ERROR_IMU_STILL_CALIBRATING port device PROS_ERR_F
      (rtn <- extern (call_vexDeviceImuDegreesGet (device_info device))
                (fun s => vexDeviceImuDegreesGet s (device_info device)) ;;
       return_port (port - 1) rtn)).

Definition QUATERNION_ERR_INIT : quaternion_s_t double :=
  {| q_a := PROS_ERR_F; q_b := PROS_ERR_F; q_c := PROS_ERR_F; q_d := PROS_ERR_F |}.

Definition imu_get_quaternion (port : Z) : M (quaternion_s_t double) :=
  let rtn := QUATERNION_ERR_INIT in
  claim_port (port - 1) rtn (fun device =>
    ERROR_IMU_STILL_CALIBRATING port device rtn
      (rtn <- extern (call_vexDeviceImuQuaternionGet (device_info device))
                (fun s => vexDeviceImuQuaternionGet s (device_info device)) ;;
       return_port (port - 1) rtn)).

Definition ATTITUDE_ERR_INIT : attitude_s_t double :=
  {| pitch := PROS_ERR_F; roll := PROS_ERR_F; yaw := PROS_ERR_F |}.

Definition imu_get_attitude (port : Z) : M (attitude_s_t double) :=
  let rtn := ATTITUDE_ERR_INIT in
  claim_port (port - 1) rtn (fun device =>
    ERROR_IMU_STILL_CALIBRATING port device rtn
      (rtn <- extern (call_vexDeviceImuAttitudeGet (device_info device))
                (fun s => vexDeviceImuAttitudeGet s (device_info device)) ;;
       return_port (port - 1) rtn)).

Definition RAW_IMU_ERR_INIT : imu_s_t double :=
  {| raw_x := PROS_ERR_F; raw_y := PROS_ERR_F; raw_z := PROS_ERR_F; raw_w := PROS_ERR_F |}.

Definition imu_get_raw_gyro (port : Z) : M (imu_s_t double) :=
  let rtn := RAW_IMU_ERR_INIT in
  claim_port (port - 1) rtn (fun device =>
    ERROR_IMU_STILL_CALIBRATING port device rtn
      (rtn <- extern (call_vexDeviceImuRawGyroGet (device_info device))
                (fun s => vexDeviceImuRawGyroGet s (device_info device)) ;;
       return_port (port - 1) rtn)).

Definition imu_get_raw_accel (port : Z) : M (imu_s_t double) :=
  let rtn := RAW_IMU_ERR_INIT in
  claim_port (port - 1) rtn (fun device =>
    ERROR_IMU_STILL_CALIBRATING port device rtn
      (rtn <- extern (call_vexDeviceImuRawAccelGet (device_info device))
                (fun s => vexDeviceImuRawAccelGet s (device_info device)) ;;
       return_port (port - 1) rtn)).

Definition imu_get_status (port : Z) : M Z :=
  let rtn := E_IMU_STATUS_ERROR in
  claim_port (port - 1) rtn (fun device =>
    ERROR_IMU_STILL_CALIBRATING port device E_IMU_STATUS_ERROR
      (rtn <- extern (call_vexDeviceImuStatusGet (device_info device))
                (fun s => vexDeviceImuStatusGet s (device_info device)) ;;
       return_port (port - 1) rtn)).

(** The state in which an accessor leaves when the claim was granted in
    [claimed] and the device is calibrating: [errno] is [EAGAIN], and the
    calls made since the claim are the reading of the status word and the
    release of the port. *)
Definition refused_calibrating (port : Z) (claimed : vdml) : vdml :=
  {| errno := EAGAIN;
     calls := calls claimed ++
              [ call_vexDeviceImuStatusGet (device_info (registry_get_device (port - 1)));
                call_port_mutex_give (port - 1) ] |}.

(** ** The calibration check *)

(** A granted claim followed by the check, on a calibrating device. *)
Lemma claim_then_calibrating {A : Type} (port : Z) (err : A)
    (rest : v5_smart_device_s_t -> M A) (s claimed : vdml) :
  claim_port_try s (port - 1) E_DEVICE_IMU = (true, claimed) ->
  calibrating (vexDeviceImuStatusGet claimed
                 (device_info (registry_get_device (port - 1)))) = true ->
  claim_port (port - 1) err
    (fun device => ERROR_IMU_STILL_CALIBRATING port device err (rest device)) s =
  (err, refused_calibrating port claimed).
Proof.
  intros Hclaim Hcal.
  unfold claim_port, ERROR_IMU_STILL_CALIBRATING, bind. rewrite Hclaim.
  unfold extern at 1. cbn beta iota. rewrite Hcal.
  unfold set_errno, return_port, extern, bind, ret, refused_calibrating.
  cbn [errno calls]. now rewrite <- app_assoc.
Qed.

(** The same claim and check on a device that is not calibrating goes on
    with the rest of the accessor, the status word having been read. *)
Lemma claim_then_ready {A : Type} (port : Z) (err : A)
    (rest : v5_smart_device_s_t -> M A) (s claimed : vdml) :
  claim_port_try s (port - 1) E_DEVICE_IMU = (true, claimed) ->
  calibrating (vexDeviceImuStatusGet claimed
                 (device_info (registry_get_device (port - 1)))) = false ->
  claim_port (port - 1) err
    (fun device => ERROR_IMU_STILL_CALIBRATING port device err (rest device)) s =
  rest (registry_get_device (port - 1))
    {| errno := errno claimed;
       calls := calls claimed ++
                [call_vexDeviceImuStatusGet (device_info (registry_get_device (port - 1)))] |}.
Proof.
  intros Hclaim Hcal.
  unfold claim_port, ERROR_IMU_STILL_CALIBRATING, bind. rewrite Hclaim.
  unfold extern at 1. cbn beta iota. rewrite Hcal.
  reflexivity.
Qed.

(** C10.  When the claim of the port is granted and the status word of
    the device has the calibrating flag set, each of the eight accessors
    returns its error value ([PROS_ERR]; [PROS_ERR_F]; the structure whose
    fields are all [PROS_ERR_F]; [E_IMU_STATUS_ERROR]) and leaves [errno]
    at [EAGAIN]; after the claim it has made two calls, the reading of the
    status word that the check itself makes and then the release of the
    port, so the vendor operation of the accessor has not been called. *)
Theorem calibrating_device_is_refused (port : Z) (s claimed : vdml) :
  claim_port_try s (port - 1) E_DEVICE_IMU = (true, claimed) ->
  calibrating (vexDeviceImuStatusGet claimed
                 (device_info (registry_get_device (port - 1)))) = true ->
  imu_reset port s = (PROS_ERR, refused_calibrating port claimed) /\
  imu_get_heading port s = (PROS_ERR_F, refused_calibrating port claimed) /\
  imu_get_degrees port s = (PROS_ERR_F, refused_calibrating port claimed) /\
  imu_get_quaternion port s =
    ({| q_a := PROS_ERR_F; q_b := PROS_ERR_F; q_c := PROS_ERR_F; q_d := PROS_ERR_F |},
     refused_calibrating port claimed) /\
  imu_get_attitude port s =
    ({| pitch := PROS_ERR_F; roll := PROS_ERR_F; yaw := PROS_ERR_F |},
     refused_calibrating port claimed) /\
  imu_get_raw_gyro port s =
    ({| raw_x := PROS_ERR_F; raw_y := PROS_ERR_F; raw_z := PROS_ERR_F; raw_w := PROS_ERR_F |},
     refused_calibrating port claimed) /\
  imu_get_raw_accel port s =
    ({| raw_x := PROS_ERR_F; raw_y := PROS_ERR_F; raw_z := PROS_ERR_F; raw_w := PROS_ERR_F |},
     refused_calibrating port claimed) /\
  imu_get_status port s = (E_IMU_STATUS_ERROR, refused_calibrating port claimed).
Proof.
  intros Hclaim Hcal.
  unfold imu_reset, imu_get_heading, imu_get_degrees, imu_get_quaternion,
    imu_get_attitude, imu_get_raw_gyro, imu_get_raw_accel, imu_get_status.
  cbv zeta.
  repeat split;
    match goal with
    | |- claim_port _ ?err (fun device => ERROR_IMU_STILL_CALIBRATING _ device _ (@?rest device)) _ = _ =>
        exact (claim_then_calibrating port err rest s claimed Hclaim Hcal)
    end.
Qed.

(** ** The other ways through an accessor *)

(** The state after the check has read the status word of a device that
    is not calibrating. *)
Definition checked (port : Z) (claimed : vdml) : vdml :=
  {| errno := errno claimed;
     calls := calls claimed ++
              [call_vexDeviceImuStatusGet (device_info (registry_get_device (port - 1)))] |}.

(** The state in which an accessor leaves after its vendor operation
    [op]: [errno] is as the claim left it, and the calls since the claim
    are the check's reading of the status word, the operation, and the
    release of the port. *)
Definition served (port : Z) (op : Z -> call) (claimed : vdml) : vdml :=
  {| errno := errno claimed;
     calls := calls claimed ++
              [ call_vexDeviceImuStatusGet (device_info (registry_get_device (port - 1)));
                op (device_info (registry_get_device (port - 1)));
                call_port_mutex_give (port - 1) ] |}.

Definition is_release (port : Z) (c : call) : bool :=
  match c with
  | call_port_mutex_give p => p =? port
  | _ => false
  end.

(** Since the claim was granted in [claimed], the port has been released
    once, and that was the last thing done. *)
Definition released_once (port : Z) (claimed final : vdml) : Prop :=
  exists l,
    calls final = calls claimed ++ l /\
    last l = Some (call_port_mutex_give (port - 1)) /\
    length (List.filter (is_release (port - 1)) l) = 1%nat.

Lemma claim_refused {A : Type} (port : Z) (err : A)
    (body : v5_smart_device_s_t -> M A) (s refused : vdml) :
  claim_port_try s port E_DEVICE_IMU = (false, refused) ->
  claim_port port err body s = (err, refused).
Proof. intros H. unfold claim_port, bind. now rewrite H. Qed.

Lemma operation_then_release {A B : Type} (port : Z) (op : Z -> call)
    (result : vdml -> A) (g : A -> B) (claimed : vdml) :
  (x <- extern (op (device_info (registry_get_device (port - 1)))) result ;;
   return_port (port - 1) (g x)) (checked port claimed) =
  (g (result (checked port claimed)), served port op claimed).
Proof.
  unfold return_port, bind, ret, checked, served.
  unfold extern. cbn [errno calls]. now rewrite <- !app_assoc.
Qed.

(** X13.  When the claim of the port is refused, each of the five
    accessors that spell the claim out returns its error value at once:
    the state is as [claim_port_try] left it, so no vendor entry point
    has been called, [errno] is the one the claim set, and no mutex is
    released. *)
Theorem refused_claim_returns_the_error_value (port : Z) (s refused : vdml) :
  claim_port_try s (port - 1) E_DEVICE_IMU = (false, refused) ->
  imu_get_quaternion port s = (QUATERNION_ERR_INIT, refused) /\
  imu_get_attitude port s = (ATTITUDE_ERR_INIT, refused) /\
  imu_get_raw_gyro port s = (RAW_IMU_ERR_INIT, refused) /\
  imu_get_raw_accel port s = (RAW_IMU_ERR_INIT, refused) /\
  imu_get_status port s = (E_IMU_STATUS_ERROR, refused).
Proof.
  intros H.
  unfold imu_get_quaternion, imu_get_attitude, imu_get_raw_gyro, imu_get_raw_accel,
    imu_get_status. cbv zeta.
  repeat split; now apply claim_refused.
Qed.

(** X14.  When the claim is granted and the device is not calibrating,
    each accessor returns what its vendor entry point returns
    ([imu_reset] returns 1), having called, after the check's reading of
    the status word, that entry point once and then released the port;
    [errno] is not touched.  The status that [imu_get_status] returns is
    a second reading, made after the check's. *)
Theorem ready_device_is_served (port : Z) (s claimed : vdml) :
  claim_port_try s (port - 1) E_DEVICE_IMU = (true, claimed) ->
  calibrating (vexDeviceImuStatusGet claimed
                 (device_info (registry_get_device (port - 1)))) = false ->
  let info := device_info (registry_get_device (port - 1)) in
  let s1 := checked port claimed in
  imu_reset port s = (1, served port call_vexDeviceImuReset claimed) /\
  imu_get_heading port s =
    (vexDeviceImuHeadingGet s1 info, served port call_vexDeviceImuHeadingGet claimed) /\
  imu_get_degrees port s =
    (vexDeviceImuDegreesGet s1 info, served port call_vexDeviceImuDegreesGet claimed) /\
  imu_get_quaternion port s =
    (vexDeviceImuQuaternionGet s1 info,
     served port call_vexDeviceImuQuaternionGet claimed) /\
  imu_get_attitude port s =
    (vexDeviceImuAttitudeGet s1 info, served port call_vexDeviceImuAttitudeGet claimed) /\
  imu_get_raw_gyro port s =
    (vexDeviceImuRawGyroGet s1 info, served port call_vexDeviceImuRawGyroGet claimed) /\
  imu_get_raw_accel port s =
    (vexDeviceImuRawAccelGet s1 info, served port call_vexDeviceImuRawAccelGet claimed) /\
  imu_get_status port s =
    (vexDeviceImuStatusGet s1 info, served port call_vexDeviceImuStatusGet claimed).
Proof.
  intros Hclaim Hcal. cbv zeta.
  unfold imu_reset, imu_get_heading, imu_get_degrees, imu_get_quaternion,
    imu_get_attitude, imu_get_raw_gyro, imu_get_raw_accel, imu_get_status.
  cbv zeta.
  repeat split;
    match goal with
    | |- claim_port _ ?err (fun device => ERROR_IMU_STILL_CALIBRATING _ device _ (@?rest device)) _ = _ =>
        rewrite (claim_then_ready port err rest s claimed Hclaim Hcal)
    end.
  - exact (operation_then_release port call_vexDeviceImuReset (fun _ => tt)
             (fun _ => 1) claimed).
  - exact (operation_then_release port call_vexDeviceImuHeadingGet _ (fun x => x) claimed).
  - exact (operation_then_release port call_vexDeviceImuDegreesGet _ (fun x => x) claimed).
  - exact (operation_then_release port call_vexDeviceImuQuaternionGet _ (fun x => x) claimed).
  - exact (operation_then_release port call_vexDeviceImuAttitudeGet _ (fun x => x) claimed).
  - exact (operation_then_release port call_vexDeviceImuRawGyroGet _ (fun x => x) claimed).
  - exact (operation_then_release port call_vexDeviceImuRawAccelGet _ (fun x => x) claimed).
  - exact (operation_then_release port call_vexDeviceImuStatusGet _ (fun x => x) claimed).
Qed.

Lemma refused_calibrating_released (port : Z) (claimed : vdml) :
  released_once port claimed (refused_calibrating port claimed).
Proof.
  eexists. split; [reflexivity|]. split; [reflexivity|].
  cbn [List.filter is_release]. now rewrite Z.eqb_refl.
Qed.

Lemma served_released (port : Z) (op : Z -> call) (claimed : vdml) :
  (forall d, is_release (port - 1) (op d) = false) ->
  released_once port claimed (served port op claimed).
Proof.
  intros Hop. eexists. split; [reflexivity|]. split; [reflexivity|].
  cbn [List.filter is_release]. now rewrite Hop, Z.eqb_refl.
Qed.

Lemma accessor_releases {A : Type} (port : Z) (err : A) (op : Z -> call)
    (result : vdml -> A) (s claimed : vdml) :
  (forall d, is_release (port - 1) (op d) = false) ->
  claim_port_try s (port - 1) E_DEVICE_IMU = (true, claimed) ->
  released_once port claimed
    (snd (claim_port (port - 1) err
            (fun device =>
               ERROR_IMU_STILL_CALIBRATING port device err
                 (x <- extern (op (device_info device)) result ;;
                  return_port (port - 1) x)) s)).
Proof.
  intros Hop Hclaim.
  destruct (calibrating (vexDeviceImuStatusGet claimed
              (device_info (registry_get_device (port - 1))))) eqn:Hcal.
  - rewrite (claim_then_calibrating port err _ s claimed Hclaim Hcal).
    apply refused_calibrating_released.
  - rewrite (claim_then_ready port err
               (fun device => x <- extern (op (device_info device)) result ;;
                              return_port (port - 1) x) s claimed Hclaim Hcal).
    match goal with
    | |- released_once _ _ (snd ?t) =>
        replace t with (result (checked port claimed), served port op claimed)
          by (symmetry;
              exact (operation_then_release port op result (fun x => x) claimed))
    end.
    now apply served_released.
Qed.

(** X15.  Once the claim of the port is granted, every accessor releases
    the port exactly once before it returns, as the last call it makes,
    whether or not the device is calibrating. *)
Theorem granted_port_is_released_once (port : Z) (s claimed : vdml) :
  claim_port_try s (port - 1) E_DEVICE_IMU = (true, claimed) ->
  released_once port claimed (snd (imu_reset port s)) /\
  released_once port claimed (snd (imu_get_heading port s)) /\
  released_once port claimed (snd (imu_get_degrees port s)) /\
  released_once port claimed (snd (imu_get_quaternion port s)) /\
  released_once port claimed (snd (imu_get_attitude port s)) /\
  released_once port claimed (snd (imu_get_raw_gyro port s)) /\
  released_once port claimed (snd (imu_get_raw_accel port s)) /\
  released_once port claimed (snd (imu_get_status port s)).
Proof.
  intros Hclaim. split.
  - (* imu_reset discards what the vendor call returns *)
    unfold imu_reset.
    destruct (calibrating (vexDeviceImuStatusGet claimed
                (device_info (registry_get_device (port - 1))))) eqn:Hcal.
    + rewrite (claim_then_calibrating port PROS_ERR _ s claimed Hclaim Hcal).
      apply refused_calibrating_released.
    + rewrite (claim_then_ready port PROS_ERR
                 (fun device =>
                    extern (call_vexDeviceImuReset (device_info device)) (fun _ => tt) ;;;
                    return_port (port - 1) 1) s claimed Hclaim Hcal).
      match goal with
      | |- released_once _ _ (snd ?t) =>
          replace t with (1, served port call_vexDeviceImuReset claimed)
            by (symmetry;
                exact (operation_then_release port call_vexDeviceImuReset
                         (fun _ => tt) (fun _ => 1) claimed))
      end.
      now apply served_released.
  - unfold imu_get_heading, imu_get_degrees, imu_get_quaternion, imu_get_attitude,
      imu_get_raw_gyro, imu_get_raw_accel, imu_get_status. cbv zeta.
    repeat split; now apply accessor_releases.
Qed.

End Accessors.

(** ** A concrete platform *)

(** Readings of the sensor, with the infinity that [PROS_ERR_F] is. *)
Inductive reading : Set :=
  | infinity
  | finite (millis : Z).

(** Twenty-one ports, an inertial sensor on each, calibrating until its
    status word has been read three times. *)
Definition status_reads (s : vdml) : nat :=
  length (List.filter
            (fun c => match c with call_vexDeviceImuStatusGet _ => true | _ => false end)
            (calls s)).

Definition sample_platform : Platform :=
  {| double := reading;
     PROS_ERR := 2147483647;
     PROS_ERR_F := infinity;
     EAGAIN := 11;
     E_IMU_STATUS_CALIBRATING := 1;
     E_IMU_STATUS_ERROR := 255;
     E_DEVICE_IMU := 6;
     claim_port_try := fun s port type =>
       if (0 <=? port) && (port <? 21) && (type =? 6)
       then (true, s)
       else (false, {| errno := 22; calls := calls s |});
     registry_get_device := fun port => {| device_info := 4096 + port |};
     vexDeviceImuStatusGet := fun s _ => if (status_reads s <? 3)%nat then 1 else 0;
     vexDeviceImuHeadingGet := fun _ _ => finite 90000;
     vexDeviceImuDegreesGet := fun _ _ => finite 450000;
     vexDeviceImuQuaternionGet := fun _ _ =>
       {| q_a := finite 0; q_b := finite 0; q_c := finite 0; q_d := finite 1000 |};
     vexDeviceImuAttitudeGet := fun _ _ =>
       {| pitch := finite 0; roll := finite 0; yaw := finite 90000 |};
     vexDeviceImuRawGyroGet := fun _ _ =>
       {| raw_x := finite 0; raw_y := finite 0; raw_z := finite 0; raw_w := finite 0 |};
     vexDeviceImuRawAccelGet := fun _ _ =>
       {| raw_x := finite 0; raw_y := finite 0; raw_z := finite 1000; raw_w := finite 0 |} |}.

Definition fresh_vdml : vdml := {| errno := 0; calls := [] |}.

Example heading_while_calibrating :
  @imu_get_heading sample_platform 5 fresh_vdml =
  (infinity,
   {| errno := 11; calls := [call_vexDeviceImuStatusGet 4100; call_port_mutex_give 4] |}).
Proof. reflexivity. Qed.

Example heading_once_calibrated :
  @imu_get_heading sample_platform 5
    {| errno := 0;
       calls := [call_vexDeviceImuStatusGet 4100; call_vexDeviceImuStatusGet 4100;
                 call_vexDeviceImuStatusGet 4100] |} =
  (finite 90000,
   {| errno := 0;
      calls := [call_vexDeviceImuStatusGet 4100; call_vexDeviceImuStatusGet 4100;
                call_vexDeviceImuStatusGet 4100; call_vexDeviceImuStatusGet 4100;
                call_vexDeviceImuHeadingGet 4100; call_port_mutex_give 4] |}).
Proof. reflexivity. Qed.

Lemma calibrating_device_is_refused_witness :
  @imu_reset sample_platform 5 fresh_vdml =
    (2147483647, @refused_calibrating sample_platform 5 fresh_vdml) /\
  @imu_get_status sample_platform 5 fresh_vdml =
    (255, @refused_calibrating sample_platform 5 fresh_vdml).
Proof.
  pose proof (@calibrating_device_is_refused sample_platform 5 fresh_vdml fresh_vdml
                eq_refl eq_refl) as H.
  split; [exact (proj1 H)|].
  exact (proj2 (proj2 (proj2 (proj2 (proj2 (proj2 (proj2 H))))))).
Defined.

(** A state in which the status word has been read three times: the
    sample device has finished calibrating. *)
Definition calibrated_vdml : vdml :=
  {| errno := 0;
     calls := [call_vexDeviceImuStatusGet 4100; call_vexDeviceImuStatusGet 4100;
               call_vexDeviceImuStatusGet 4100] |}.

Example status_of_unplugged_port :
  @imu_get_status sample_platform 30 fresh_vdml = (255, {| errno := 22; calls := [] |}).
Proof. reflexivity. Qed.

Lemma refused_claim_returns_the_error_value_witness :
  @imu_get_quaternion sample_platform 30 fresh_vdml =
    (@QUATERNION_ERR_INIT sample_platform, {| errno := 22; calls := [] |}) /\
  @imu_get_status sample_platform 30 fresh_vdml =
    (255, {| errno := 22; calls := [] |}).
Proof.
  pose proof (@refused_claim_returns_the_error_value sample_platform 30 fresh_vdml
                {| errno := 22; calls := [] |} eq_refl) as H.
  split; [exact (proj1 H)|].
  exact (proj2 (proj2 (proj2 (proj2 H)))).
Defined.

Lemma ready_device_is_served_witness :
  @imu_reset sample_platform 5 calibrated_vdml =
    (1, @served sample_platform 5 call_vexDeviceImuReset calibrated_vdml) /\
  @imu_get_heading sample_platform 5 calibrated_vdml =
    (finite 90000, @served sample_platform 5 call_vexDeviceImuHeadingGet calibrated_vdml).
Proof.
  pose proof (@ready_device_is_served sample_platform 5 calibrated_vdml calibrated_vdml
                eq_refl eq_refl) as H.
  split; [exact (proj1 H)|exact (proj1 (proj2 H))].
Defined.

Lemma granted_port_is_released_once_witness :
  released_once 5 fresh_vdml
    (snd (@imu_get_status sample_platform 5 fresh_vdml)) /\
  released_once 5 calibrated_vdml
    (snd (@imu_get_status sample_platform 5 calibrated_vdml)).
Proof.
  split.
  - exact (proj2 (proj2 (proj2 (proj2 (proj2 (proj2 (proj2
      (@granted_port_is_released_once sample_platform 5 fresh_vdml fresh_vdml
         eq_refl)))))))).
  - exact (proj2 (proj2 (proj2 (proj2 (proj2 (proj2 (proj2
      (@granted_port_is_released_once sample_platform 5 calibrated_vdml calibrated_vdml
         eq_refl)))))))).
Defined.

End Imu.
